(** * Buddee plugin (src/code.ts): the message dispatcher and its three handlers

    A shallow embedding of [figma.ui.onmessage], [handleCopyLayer],
    [handleInsertDesign] and [handleGoToFile].  The plugin is glue over the
    Figma plugin API, so the development has two layers:

    - a model of the host: the current page as a forest of scene nodes, the
      selection, the viewport, the loaded fonts, the trace of user-visible
      effects, and a schedule of failures the host API raises;
    - the handlers, written call by call as in the source, in a state and
      exception monad over that host.

    JavaScript numbers are IEEE-754 binary64 values: they are modelled by
    Rocq's primitive floats, whose [+] and [-] round as JavaScript's do. *)

From Stdlib Require Import List String Ascii Bool Arith Lia PrimFloat.
Import ListNotations.

Open Scope string_scope.
Open Scope list_scope.

#[local] Set Warnings "-register-all,-inexact-float".

(** ** Scene nodes *)

Definition NodeId := nat.

Inductive NodeType := FRAME | TEXT | RECTANGLE | GROUP.

Record RGBA := { r : float; g : float; b : float; a : float }.

Record ColorStop := { position : float; color : RGBA }.

Inductive Paint :=
| SOLID (rgb : float * float * float)
| GRADIENT_LINEAR (gradientStops : list ColorStop)
                  (gradientTransform : list (list float)).

(** The properties of a node that the plugin reads or writes. [x] and [y]
    are relative to the parent, as in the plugin API. *)
Record Props := {
  type : NodeType;
  name : string;
  x : float;
  y : float;
  width : float;
  height : float;
  fills : list Paint;
  characters : string;
  fontSize : float
}.

Definition set_name (v : string) (p : Props) : Props :=
  {| type := type p; name := v; x := x p; y := y p; width := width p;
     height := height p; fills := fills p; characters := characters p;
     fontSize := fontSize p |}.

Definition set_x (v : float) (p : Props) : Props :=
  {| type := type p; name := name p; x := v; y := y p; width := width p;
     height := height p; fills := fills p; characters := characters p;
     fontSize := fontSize p |}.

Definition set_y (v : float) (p : Props) : Props :=
  {| type := type p; name := name p; x := x p; y := v; width := width p;
     height := height p; fills := fills p; characters := characters p;
     fontSize := fontSize p |}.

Definition set_size (w h : float) (p : Props) : Props :=
  {| type := type p; name := name p; x := x p; y := y p; width := w;
     height := h; fills := fills p; characters := characters p;
     fontSize := fontSize p |}.

Definition set_fills (v : list Paint) (p : Props) : Props :=
  {| type := type p; name := name p; x := x p; y := y p; width := width p;
     height := height p; fills := v; characters := characters p;
     fontSize := fontSize p |}.

Definition set_characters (v : string) (p : Props) : Props :=
  {| type := type p; name := name p; x := x p; y := y p; width := width p;
     height := height p; fills := fills p; characters := v;
     fontSize := fontSize p |}.

Definition set_fontSize (v : float) (p : Props) : Props :=
  {| type := type p; name := name p; x := x p; y := y p; width := width p;
     height := height p; fills := fills p; characters := characters p;
     fontSize := v |}.

(** A scene node: its identity, its own properties and its children, first
    child first. *)
Inductive SceneNode :=
| Node (id : NodeId) (props : Props) (children : list SceneNode).

Definition node_id (n : SceneNode) : NodeId :=
  match n with Node i _ _ => i end.

Definition node_props (n : SceneNode) : Props :=
  match n with Node _ p _ => p end.

Definition node_children (n : SceneNode) : list SceneNode :=
  match n with Node _ _ cs => cs end.

(** A forest is the list of children of the page (or of a node). *)
Definition Forest := list SceneNode.

Fixpoint ids (n : SceneNode) : list NodeId :=
  match n with Node i _ cs => i :: flat_map ids cs end.

Definition forest_ids (f : Forest) : list NodeId := flat_map ids f.

Fixpoint size (n : SceneNode) : nat :=
  match n with Node _ _ cs => S (list_sum (map size cs)) end.

(** The first node, in document order, that carries identity [i]. *)
Fixpoint find (i : NodeId) (n : SceneNode) : option SceneNode :=
  match n with
  | Node j _ cs =>
      if Nat.eqb j i then Some n
      else (fix find_in (l : Forest) : option SceneNode :=
              match l with
              | [] => None
              | c :: l' =>
                  match find i c with
                  | Some m => Some m
                  | None => find_in l'
                  end
              end) cs
  end.

Fixpoint find_in (i : NodeId) (l : Forest) : option SceneNode :=
  match l with
  | [] => None
  | c :: l' =>
      match find i c with
      | Some m => Some m
      | None => find_in i l'
      end
  end.

(** Apply [f] to the properties of every node that carries identity [i]. *)
Fixpoint update (i : NodeId) (f : Props -> Props) (n : SceneNode) : SceneNode :=
  match n with
  | Node j p cs => Node j (if Nat.eqb j i then f p else p) (map (update i f) cs)
  end.

Definition update_in (i : NodeId) (f : Props -> Props) (l : Forest) : Forest :=
  map (update i f) l.

Definition is_not (i : NodeId) (n : SceneNode) : bool :=
  negb (Nat.eqb (node_id n) i).

(** Remove the subtrees rooted at identity [i]. *)
Fixpoint prune (i : NodeId) (n : SceneNode) : SceneNode :=
  match n with
  | Node j p cs =>
      Node j p
        ((fix detach (l : Forest) : Forest :=
            match l with
            | [] => []
            | c :: l' => if is_not i c then prune i c :: detach l' else detach l'
            end) cs)
  end.

Fixpoint detach (i : NodeId) (l : Forest) : Forest :=
  match l with
  | [] => []
  | c :: l' => if is_not i c then prune i c :: detach i l' else detach i l'
  end.

(** Make [c] the last child of every node that carries identity [parent]. *)
Fixpoint graft (parent : NodeId) (c : SceneNode) (n : SceneNode) {struct n}
  : SceneNode :=
  match n with
  | Node j p cs =>
      Node j p (map (graft parent c) cs ++ (if Nat.eqb j parent then [c] else []))
  end.

(** A copy of [n] that carries identities [k], [k+1], ... in document
    order: the identities the host gives to a duplicate. *)
Fixpoint relabel (k : NodeId) (n : SceneNode) : SceneNode :=
  match n with
  | Node _ p cs =>
      Node k p
        ((fix relabel_from (k : NodeId) (l : Forest) : Forest :=
            match l with
            | [] => []
            | c :: l' => relabel k c :: relabel_from (k + size c) l'
            end) (S k) cs)
  end.

Fixpoint relabel_from (k : NodeId) (l : Forest) : Forest :=
  match l with
  | [] => []
  | c :: l' => relabel k c :: relabel_from (k + size c) l'
  end.

(** An identity that no node of the forest carries. *)
Definition fresh (l : Forest) : NodeId := S (list_max (forest_ids l)).

(** ** The host

    The host document and the [figma] handle belong to the design tool, not
    to the plugin. They are modelled after the behaviour the plugin API
    documents for the calls the plugin makes: a node that is created or
    duplicated is parented under the current page, [appendChild] moves a
    node to the end of the children of its new parent, a text property
    can be assigned once the font is loaded. *)

Module Vector.
Record t := { x : float; y : float }.
End Vector.

Record FontName := { family : string; style : string }.

Definition font_eqb (f1 f2 : FontName) : bool :=
  String.eqb (family f1) (family f2) && String.eqb (style f1) (style f2).

(** What a [throw] carries: an [Error] object with its message, or any
    other value. *)
Inductive Thrown :=
| ErrorObject (message : string)
| OtherValue (v : string).

(** The effects a user can observe outside the document, oldest first. *)
Inductive Effect :=
| Notify (message : string)
| OpenExternal (url : string)
| ConsoleLog (args : list string).

(** The state behind the ambient [figma] handle.

    - [children] and [selection] are those of [figma.currentPage];
    - [center] is [figma.viewport.center], [in_view] the nodes the viewport
      was last scrolled and zoomed to show, and [fit] the host's own
      computation of the centre that shows a set of nodes;
    - [failures] is the schedule of the host's failures: the next host call
      consumes its head and raises when the head holds a value. *)
Record Host := {
  children : Forest;
  selection : list NodeId;
  center : Vector.t;
  in_view : list NodeId;
  fonts : list FontName;
  effects : list Effect;
  failures : list (option Thrown);
  fit : Forest -> list NodeId -> Vector.t
}.

Definition with_children (v : Forest) (h : Host) : Host :=
  {| children := v; selection := selection h; center := center h;
     in_view := in_view h; fonts := fonts h; effects := effects h;
     failures := failures h; fit := fit h |}.

Definition with_selection (v : list NodeId) (h : Host) : Host :=
  {| children := children h; selection := v; center := center h;
     in_view := in_view h; fonts := fonts h; effects := effects h;
     failures := failures h; fit := fit h |}.

Definition with_viewport (c : Vector.t) (v : list NodeId) (h : Host) : Host :=
  {| children := children h; selection := selection h; center := c;
     in_view := v; fonts := fonts h; effects := effects h;
     failures := failures h; fit := fit h |}.

Definition with_fonts (v : list FontName) (h : Host) : Host :=
  {| children := children h; selection := selection h; center := center h;
     in_view := in_view h; fonts := v; effects := effects h;
     failures := failures h; fit := fit h |}.

Definition with_effects (v : list Effect) (h : Host) : Host :=
  {| children := children h; selection := selection h; center := center h;
     in_view := in_view h; fonts := fonts h; effects := v;
     failures := failures h; fit := fit h |}.

Definition with_failures (v : list (option Thrown)) (h : Host) : Host :=
  {| children := children h; selection := selection h; center := center h;
     in_view := in_view h; fonts := fonts h; effects := effects h;
     failures := v; fit := fit h |}.

(** ** Computations over the host *)

Inductive Completion (A : Type) :=
| Normal (v : A)
| Throw (e : Thrown).

Arguments Normal {A} v.
Arguments Throw {A} e.

Definition Js (A : Type) : Type := Host -> Host * Completion A.

Definition ret {A : Type} (v : A) : Js A := fun h => (h, Normal v).

Definition bind {A B : Type} (m : Js A) (k : A -> Js B) : Js B :=
  fun h =>
    match m h with
    | (h', Normal v) => k v h'
    | (h', Throw e) => (h', Throw e)
    end.

Declare Scope js_scope.
Delimit Scope js_scope with js.
Notation "x <- m ;; k" := (bind m (fun x => k))
  (at level 61, m at next level, right associativity) : js_scope.
Notation "m ;; k" := (bind m (fun _ => k))
  (at level 61, right associativity) : js_scope.
Open Scope js_scope.

(** [try { body } catch (error) { handler }]: the state the body reached
    when it raised is the state the handler starts from. *)
Definition try_catch {A : Type} (body : Js A) (handler : Thrown -> Js A) : Js A :=
  fun h =>
    match body h with
    | (h', Normal v) => (h', Normal v)
    | (h', Throw e) => handler e h'
    end.

(** A call of an [async] function whose promise the caller drops: the
    function runs, and a rejection stays in the promise. *)
Definition call_async (m : Js unit) : Js unit :=
  fun h => (fst (m h), Normal tt).

(** Every call of the host API first consults the failure schedule and
    consumes its head. An empty schedule raises nothing. *)
Definition host_call {A : Type} (op : Js A) : Js A :=
  fun h =>
    match failures h with
    | Some e :: rest => (with_failures rest h, Throw e)
    | _ => op (with_failures (tl (failures h)) h)
    end.

Definition node_gone : Thrown := ErrorObject "The node does not exist".

(** ** The host API the plugin consumes *)

Module figma.

Definition notify (message : string) : Js unit :=
  host_call (fun h => (with_effects (effects h ++ [Notify message]) h, Normal tt)).

Definition openExternal (url : string) : Js unit :=
  host_call (fun h => (with_effects (effects h ++ [OpenExternal url]) h, Normal tt)).

(** [figma.currentPage.selection], read. *)
Definition get_selection : Js (list NodeId) :=
  host_call (fun h => (h, Normal (selection h))).

(** [figma.currentPage.selection = nodes]. *)
Definition set_selection (nodes : list NodeId) : Js unit :=
  host_call (fun h => (with_selection nodes h, Normal tt)).

(** [figma.viewport.center], read. *)
Definition get_center : Js Vector.t :=
  host_call (fun h => (h, Normal (center h))).

Definition scrollAndZoomIntoView (nodes : list NodeId) : Js unit :=
  host_call (fun h =>
    (with_viewport (fit h (children h) nodes) nodes h, Normal tt)).

(** [node.clone()]: the duplicate carries new identities and is parented
    under the current page, after the page's other children. *)
Definition clone (node : NodeId) : Js NodeId :=
  host_call (fun h =>
    match find_in node (children h) with
    | None => (h, Throw node_gone)
    | Some n =>
        let k := fresh (children h) in
        (with_children (children h ++ [relabel k n]) h, Normal k)
    end).

(** Reading a property of a node. *)
Definition get {A : Type} (prop : Props -> A) (node : NodeId) : Js A :=
  host_call (fun h =>
    match find_in node (children h) with
    | None => (h, Throw node_gone)
    | Some n => (h, Normal (prop (node_props n)))
    end).

(** Assigning a property of a node. *)
Definition set (assign : Props -> Props) (node : NodeId) : Js unit :=
  host_call (fun h =>
    match find_in node (children h) with
    | None => (h, Throw node_gone)
    | Some _ => (with_children (update_in node assign (children h)) h, Normal tt)
    end).

(** [figma.currentPage.appendChild(node)]: the node leaves its parent
    and becomes the last child of the page. *)
Definition currentPage_appendChild (node : NodeId) : Js unit :=
  host_call (fun h =>
    match find_in node (children h) with
    | None => (h, Throw node_gone)
    | Some n => (with_children (detach node (children h) ++ [n]) h, Normal tt)
    end).

(** [parent.appendChild(node)]: the node leaves its parent and becomes
    the last child of [parent], which must not lie inside the node. *)
Definition appendChild (parent node : NodeId) : Js unit :=
  host_call (fun h =>
    match find_in node (children h) with
    | None => (h, Throw node_gone)
    | Some n =>
        let rest := detach node (children h) in
        match find_in parent rest with
        | None => (h, Throw (ErrorObject "Cannot move node into itself"))
        | Some _ => (with_children (map (graft parent n) rest) h, Normal tt)
        end
    end).

Definition Inter_Regular : FontName := {| family := "Inter"; style := "Regular" |}.

Definition new_frame : Props :=
  {| type := FRAME; name := "Frame"; x := 0; y := 0; width := 100;
     height := 100; fills := [SOLID (1, 1, 1)%float]; characters := "";
     fontSize := 0 |}.

Definition new_text : Props :=
  {| type := TEXT; name := "Text"; x := 0; y := 0; width := 0;
     height := 0; fills := [SOLID (0, 0, 0)%float]; characters := "";
     fontSize := 12 |}.

(** [figma.createFrame()] and [figma.createText()]: the new node is
    parented under the current page. *)
Definition create (p : Props) : Js NodeId :=
  host_call (fun h =>
    let k := fresh (children h) in
    (with_children (children h ++ [Node k p []]) h, Normal k)).

Definition createFrame : Js NodeId := create new_frame.
Definition createText : Js NodeId := create new_text.

(** [node.resize(width, height)] refuses sizes below 0.01. *)
Definition resize (node : NodeId) (w h : float) : Js unit :=
  if (PrimFloat.ltb w 0.01 || PrimFloat.ltb h 0.01)%bool
  then host_call (fun s => (s, Throw (ErrorObject "Size must be at least 0.01")))
  else set (set_size w h) node.

(** [await figma.loadFontAsync(font)]. *)
Definition loadFontAsync (font : FontName) : Js unit :=
  host_call (fun h => (with_fonts (font :: fonts h) h, Normal tt)).

(** Assigning a text property needs the node's font, Inter Regular for a
    new text node, to be loaded. *)
Definition set_text (assign : Props -> Props) (node : NodeId) : Js unit :=
  host_call (fun h =>
    match find_in node (children h) with
    | None => (h, Throw node_gone)
    | Some _ =>
        if existsb (font_eqb Inter_Regular) (fonts h)
        then (with_children (update_in node assign (children h)) h, Normal tt)
        else (h, Throw (ErrorObject "Cannot write to node with unloaded font"))
    end).

End figma.

(** [console.log]: not a call of the host API. *)
Definition console_log (args : list string) : Js unit :=
  fun h => (with_effects (effects h ++ [ConsoleLog args]) h, Normal tt).

(** ** The plugin *)

Inductive PluginMessage :=
| UserMessage (text : string)
| PreviewActionMessage (action url title : string).

(** [error instanceof Error ? error.message : 'Unknown error']. *)
Definition errorMessage (error : Thrown) : string :=
  match error with
  | ErrorObject message => message
  | OtherValue _ => "Unknown error"
  end.

Definition ready_to_copy (title : string) : string :=
  "✓ Ready to copy: " ++ title
  ++ ". Use Cmd+C (Mac) or Ctrl+C (Windows) to copy selected layers.".

(** One turn of [for (const node of selection)] (lines 78-84). *)
Definition duplicate_node (node : NodeId) : Js NodeId :=
  duplicate <- figma.clone node ;;
  vx <- figma.get x duplicate ;;
  figma.set (set_x (vx + 20)%float) duplicate ;;
  vy <- figma.get y duplicate ;;
  figma.set (set_y (vy + 20)%float) duplicate ;;
  figma.currentPage_appendChild duplicate ;;
  ret duplicate.

(** The loop, with [duplicates] as it stands when the turn for the head of
    [nodes] starts. *)
Fixpoint duplicate_all (nodes : list NodeId) (duplicates : list NodeId)
  : Js (list NodeId) :=
  match nodes with
  | [] => ret duplicates
  | node :: rest =>
      duplicate <- duplicate_node node ;;
      duplicate_all rest (duplicates ++ [duplicate])
  end.

(** [handleCopyLayer] (lines 56-92): the body of its [try], then the
    function with its [catch]. *)
Definition handleCopyLayer_body (url title : string) : Js unit :=
  selection <- figma.get_selection ;;
  if Nat.eqb (List.length selection) 0 then
    figma.notify "Please select a layer to copy first"
  else
    figma.notify (ready_to_copy title) ;;
    duplicates <- duplicate_all selection [] ;;
    figma.set_selection duplicates ;;
    figma.scrollAndZoomIntoView duplicates.

Definition handleCopyLayer (url title : string) : Js unit :=
  try_catch (handleCopyLayer_body url title)
    (fun error => figma.notify ("Error copying layer: " ++ errorMessage error)).

Definition gradient_fill : Paint :=
  GRADIENT_LINEAR
    [ {| position := 0; color := {| r := 0.4; g := 0.49; b := 0.92; a := 1 |} |};
      {| position := 1; color := {| r := 0.46; b := 0.29; g := 0.64; a := 1 |} |} ]
    [ [0; 1; 0]; [1; 0; 0] ]%float.

(** [handleInsertDesign] (lines 95-148). The continuation after [await]
    is run when the font is loaded, with no other handler in between. *)
Definition handleInsertDesign_body (url title : string) : Js unit :=
  frame <- figma.createFrame ;;
  figma.set (set_name title) frame ;;
  figma.resize frame 400 300 ;;
  c1 <- figma.get_center ;;
  c2 <- figma.get_center ;;
  let viewportCenter :=
    {| Vector.x := Vector.x c1 - 200; Vector.y := Vector.y c2 - 150 |} in
  figma.set (set_x (Vector.x viewportCenter)) frame ;;
  figma.set (set_y (Vector.y viewportCenter)) frame ;;
  figma.set (set_fills [gradient_fill]) frame ;;
  text <- figma.createText ;;
  figma.loadFontAsync figma.Inter_Regular ;;
  figma.set_text (set_characters title) text ;;
  figma.set_text (set_fontSize 16) text ;;
  figma.set (set_fills [SOLID (1, 1, 1)%float]) text ;;
  figma.set (set_x 20) text ;;
  figma.set (set_y 20) text ;;
  figma.appendChild frame text ;;
  figma.currentPage_appendChild frame ;;
  figma.set_selection [frame] ;;
  figma.scrollAndZoomIntoView [frame] ;;
  figma.notify ("✓ Inserted design: " ++ title).

Definition handleInsertDesign (url title : string) : Js unit :=
  try_catch (handleInsertDesign_body url title)
    (fun error => figma.notify ("Error inserting design: " ++ errorMessage error)).

(** [handleGoToFile] (lines 151-167). *)
Definition handleGoToFile_body (url title : string) : Js unit :=
  figma.openExternal url ;;
  figma.notify ("Opening: " ++ title).

Definition handleGoToFile (url title : string) : Js unit :=
  try_catch (handleGoToFile_body url title)
    (fun error => figma.notify ("Error opening file: " ++ errorMessage error)).

(** [figma.ui.onmessage] (lines 26-53). The [switch] has no [default];
    the handlers are [async] and their promises are dropped. *)
Definition onmessage (msg : PluginMessage) : Js unit :=
  match msg with
  | UserMessage text => console_log ["User message:"; text]
  | PreviewActionMessage action url title =>
      if String.eqb action "copy" then call_async (handleCopyLayer url title)
      else if String.eqb action "insert" then call_async (handleInsertDesign url title)
      else if String.eqb action "goto" then call_async (handleGoToFile url title)
      else ret tt
  end.

(** ** Observations *)

Definition notifications (h : Host) : list string :=
  flat_map (fun e => match e with Notify m => [m] | _ => [] end) (effects h).

Definition opened (h : Host) : list string :=
  flat_map (fun e => match e with OpenExternal u => [u] | _ => [] end) (effects h).

(** The document proper: what a handler can mutate in the host document. *)
Definition document (h : Host) : Forest * list NodeId * (Vector.t * list NodeId) :=
  (children h, selection h, (center h, in_view h)).

(** The parent of the first node that carries identity [i]: [None] when the
    page has no such node, [Some None] when the page itself is the parent. *)
Fixpoint parent_under (here : option NodeId) (i : NodeId) (n : SceneNode)
  : option (option NodeId) :=
  match n with
  | Node j _ cs =>
      if Nat.eqb j i then Some here
      else (fix parent_among (l : Forest) : option (option NodeId) :=
              match l with
              | [] => None
              | c :: l' =>
                  match parent_under (Some j) i c with
                  | Some p => Some p
                  | None => parent_among l'
                  end
              end) cs
  end.

Fixpoint parent_in (i : NodeId) (l : Forest) : option (option NodeId) :=
  match l with
  | [] => None
  | c :: l' =>
      match parent_under None i c with
      | Some p => Some p
      | None => parent_in i l'
      end
  end.

(** A small host to run the handlers on: two rectangles on the page and a
    frame that holds a third. *)
Definition rect (nm : string) (px py : float) : Props :=
  {| type := RECTANGLE; name := nm; x := px; y := py; width := 50;
     height := 40; fills := []; characters := ""; fontSize := 0 |}.

Definition demo_page : Forest :=
  [ Node 1 (rect "A" 10 10) [];
    Node 2 (rect "B" 0.5 (-7)) [];
    Node 3 (set_size 200 200 figma.new_frame) [ Node 4 (rect "C" 5 5) [] ] ].

Definition demo_host (sel : list NodeId) (cx cy : float)
  (fs : list (option Thrown)) : Host :=
  {| children := demo_page; selection := sel;
     center := {| Vector.x := cx; Vector.y := cy |}; in_view := [];
     fonts := []; effects := []; failures := fs;
     fit := fun _ _ => {| Vector.x := 0; Vector.y := 0 |} |}.

(** What the examples show of a child of the page: identity, name,
    position and number of children. *)
Definition summary (n : SceneNode) : NodeId * string * (float * float) * nat :=
  (node_id n, name (node_props n), (x (node_props n), y (node_props n)),
   List.length (node_children n)).

(** ** Vocabulary of the statements *)

(** The host once the next call of the host API has consumed the head of
    the failure schedule; after [n] calls. *)
Definition rest_of (h : Host) : Host := with_failures (tl (failures h)) h.

Fixpoint skip (n : nat) (h : Host) : Host :=
  match n with
  | 0 => h
  | S n' => skip n' (rest_of h)
  end.

(** The next [n] calls of the host API raise nothing. *)
Fixpoint calm (n : nat) (h : Host) : Prop :=
  match n with
  | 0 => True
  | S n' => hd None (failures h) = None /\ calm n' (rest_of h)
  end.

(** A node moved by (20, 20) with respect to its parent. *)
Definition moved (n : SceneNode) : SceneNode :=
  match n with
  | Node i p cs => Node i (set_y (y p + 20)%float (set_x (x p + 20)%float p)) cs
  end.

(** What the duplication loop leaves behind the children of the page:
    for each selected node found on the page, its copy under new
    identities, moved. *)
Fixpoint copies (page : Forest) (nodes : list NodeId) : Forest :=
  match nodes with
  | [] => []
  | node :: rest =>
      match find_in node page with
      | None => []
      | Some n =>
          let c := moved (relabel (fresh page) n) in
          c :: copies (page ++ [c]) rest
      end
  end.

(** Two nodes that differ at most in the identities they and their
    descendants carry. *)
Definition alike (n1 n2 : SceneNode) : Prop := relabel 0 n1 = relabel 0 n2.

(** The properties the insert handler gives to the frame and to its text
    label, for the viewport centre [c] it read. *)
Definition placeholder (title : string) (c : Vector.t) : Props :=
  {| type := FRAME; name := title;
     x := Vector.x c - 200; y := Vector.y c - 150;
     width := 400; height := 300; fills := [gradient_fill];
     characters := ""; fontSize := 0 |}.

Definition label (title : string) : Props :=
  set_y 20 (set_x 20 (set_fills [SOLID (1, 1, 1)%float]
    (set_fontSize 16 (set_characters title figma.new_text)))).

(** [===] on JavaScript numbers: the equality of IEEE-754. *)
Definition strict_equal (u v : float) : bool := PrimFloat.eqb u v.

(** Taking [offset] off [c] and adding it back gives [c] again. *)
Definition restores (offset c : float) : bool :=
  strict_equal ((c - offset) + offset) c.

(** The multiples of 1/8 as doubles: [c], [c + 1/8], ... *)
Fixpoint count_from (c : float) (n : nat) : float :=
  match n with
  | 0 => c
  | S m => count_from (c + 0.125) m
  end.

(** [c] is a multiple of 1/8, at most [bound] eighths away from 0: whole
    numbers, halves, quarters and eighths, of either sign. *)
Definition on_grid (bound : nat) (c : float) : Prop :=
  exists n, n <= bound /\ (c = count_from 0 n \/ c = (- count_from 0 n)%float).

(** Both offsets of the insert handler are restored on [c], [c + 1/8], ...
    and on their opposites, [len] numbers each way. *)
Fixpoint restores_upto (c : float) (len : nat) : bool :=
  match len with
  | 0 => true
  | S l =>
      if (restores 200 c && restores 150 c
          && restores 200 (- c) && restores 150 (- c))%bool
      then restores_upto (c + 0.125) l
      else false
  end.

(** 2^20 eighths: the grid reaches 131072 on either side of 0. *)
Definition span : nat := Nat.pow 2 20.

(** The three handlers, the action that reaches each and the words each
    puts in its error notification. *)
Inductive Handler := Copy | Insert | Goto.

Definition action_of (k : Handler) : string :=
  match k with Copy => "copy" | Insert => "insert" | Goto => "goto" end.

Definition body_of (k : Handler) : string -> string -> Js unit :=
  match k with
  | Copy => handleCopyLayer_body
  | Insert => handleInsertDesign_body
  | Goto => handleGoToFile_body
  end.

Definition doing (k : Handler) : string :=
  match k with
  | Copy => "copying layer"
  | Insert => "inserting design"
  | Goto => "opening file"
  end.

(** [c] duplicates the node that carries identity [source] on [page]: it
    is that node moved by (20, 20), up to identities. *)
Definition duplicate_of (page : Forest) (source : NodeId) (c : SceneNode) : Prop :=
  exists src,
    find_in source page = Some src /\
    x (node_props c) = (x (node_props src) + 20)%float /\
    y (node_props c) = (y (node_props src) + 20)%float /\
    alike c (moved src).

(** The selected nodes are on the page. *)
Definition live (page : Forest) (i : NodeId) : Prop := find_in i page <> None.

(** ** Vocabulary of the further properties *)

(** The identity [k] is carried by no node of [C]. *)
Definition outside (C : Forest) (k : NodeId) : Prop := ~ In k (forest_ids C).

(** Whatever the host raises, [m] leaves the first children [C] of the
    page as they are, and the values it returns satisfy [Q]. *)
Definition keeps {A : Type} (C : Forest) (m : Js A) (Q : A -> Prop) : Prop :=
  forall h extra,
    children h = C ++ extra ->
    (exists extra', children (fst (m h)) = C ++ extra') /\
    (forall v, snd (m h) = Normal v -> Q v).

(** Whatever the host raises, [m] produces no effect. *)
Definition silent {A : Type} (m : Js A) : Prop :=
  forall h, effects (fst (m h)) = effects h.

(** When [m] completes normally it has made exactly [n] calls of the host
    API, none of which raised. *)
Definition runs {A : Type} (n : nat) (m : Js A) : Prop :=
  forall h h1 v,
    m h = (h1, Normal v) -> calm n h /\ failures h1 = failures (skip n h).

Definition inserted (title : string) : Effect :=
  Notify ("✓ Inserted design: " ++ title).

Definition insert_failed (e : Thrown) : Effect :=
  Notify ("Error inserting design: " ++ errorMessage e).

Definition copy_failed (e : Thrown) : Effect :=
  Notify ("Error copying layer: " ++ errorMessage e).

Definition goto_failed (e : Thrown) : Effect :=
  Notify ("Error opening file: " ++ errorMessage e).

Definition please_select : Effect :=
  Notify "Please select a layer to copy first".

Definition ready (title : string) : Effect := Notify (ready_to_copy title).

Definition opening (title : string) : Effect := Notify ("Opening: " ++ title).

(** Whatever the host raises, [m] either raises without any effect or
    completes with the one effect [s]. *)
Definition ends_with (s : Effect) (m : Js unit) : Prop :=
  forall h,
    (effects (fst (m h)) = effects h /\ exists e, snd (m h) = Throw e) \/
    (snd (m h) = Normal tt /\ effects (fst (m h)) = effects h ++ [s]).

(** Whatever the host raises, [m] changes the failure schedule only by
    consuming entries from its head. *)
Definition drains {A : Type} (m : Js A) : Prop :=
  forall h, exists n, failures (fst (m h)) = skipn n (failures h).

(** The host delivers the messages of the panel one after the other. *)
Fixpoint run (msgs : list PluginMessage) (h : Host) : Host :=
  match msgs with
  | [] => h
  | msg :: rest => run rest (fst (onmessage msg h))
  end.



(** A host in normal operation: it raises nothing, and what is selected is
    on the page. *)
Definition settled (h : Host) : Prop :=
  failures h = [] /\ Forall (live (children h)) (selection h).

(** [c2] is [c1] moved by (20, 20), up to identities. *)
Definition moved_copy (c1 c2 : SceneNode) : Prop :=
  x (node_props c2) = (x (node_props c1) + 20)%float /\
  y (node_props c2) = (y (node_props c1) + 20)%float /\
  alike c2 (moved c1).

(** Whatever the host raises, [m] leaves the field [field] of the host as
    it was. *)
Definition fixes {A B : Type} (field : Host -> B) (m : Js A) : Prop :=
  forall h, field (fst (m h)) = field h.

(** Whatever the host raises, [m] leaves the selection as it was or makes
    it [nodes]. *)
Definition selects {A : Type} (nodes : list NodeId) (m : Js A) : Prop :=
  forall h, selection (fst (m h)) = selection h \/ selection (fst (m h)) = nodes.

(** * Facts about forests *)

Lemma node_forest_ind (P : SceneNode -> Prop) :
  (forall i p cs, Forall P cs -> P (Node i p cs)) -> forall n, P n.
Proof.
  intros step. fix IH 1. intros [i p cs]. apply step.
  induction cs as [|c cs IHcs]; constructor; [apply IH | exact IHcs].
Qed.

Lemma find_node i j p cs :
  find i (Node j p cs) =
  if Nat.eqb j i then Some (Node j p cs) else find_in i cs.
Proof.
  simpl. destruct (Nat.eqb j i); [reflexivity|].
  induction cs as [|c cs IH]; simpl; [reflexivity|].
  destruct (find i c); [reflexivity | exact IH].
Qed.

Lemma prune_node i j p cs : prune i (Node j p cs) = Node j p (detach i cs).
Proof.
  simpl. f_equal.
  induction cs as [|c cs IH]; simpl; [reflexivity|].
  rewrite IH. reflexivity.
Qed.

Lemma relabel_node k j p cs :
  relabel k (Node j p cs) = Node k p (relabel_from (S k) cs).
Proof. reflexivity. Qed.

Lemma parent_under_node here i j p cs :
  parent_under here i (Node j p cs) =
  if Nat.eqb j i then Some here
  else (fix among (l : Forest) : option (option NodeId) :=
          match l with
          | [] => None
          | c :: l' =>
              match parent_under (Some j) i c with
              | Some q => Some q
              | None => among l'
              end
          end) cs.
Proof. reflexivity. Qed.

Lemma forest_ids_app l1 l2 :
  forest_ids (l1 ++ l2) = forest_ids l1 ++ forest_ids l2.
Proof. apply flat_map_app. Qed.

Lemma find_not_in i n : ~ In i (ids n) -> find i n = None.
Proof.
  induction n as [j p cs IH] using node_forest_ind. intros Hn.
  rewrite find_node. simpl in Hn.
  destruct (Nat.eqb_spec j i) as [->|_]; [exfalso; apply Hn; now left|].
  assert (Hcs : ~ In i (flat_map ids cs)) by (intros F; apply Hn; now right).
  clear Hn. induction cs as [|c cs IHcs]; simpl; [reflexivity|].
  inversion IH as [|? ? Hc Hrest]; subst.
  simpl in Hcs. rewrite in_app_iff in Hcs.
  rewrite Hc by tauto. apply IHcs; [assumption | tauto].
Qed.

Lemma find_in_not_in i l : ~ In i (forest_ids l) -> find_in i l = None.
Proof.
  induction l as [|c l IH]; simpl; [reflexivity|].
  intros Hn. unfold forest_ids in Hn. simpl in Hn. rewrite in_app_iff in Hn.
  rewrite find_not_in by tauto. apply IH. unfold forest_ids. tauto.
Qed.

Lemma find_in_app i l1 l2 :
  find_in i (l1 ++ l2) =
  match find_in i l1 with Some m => Some m | None => find_in i l2 end.
Proof.
  induction l1 as [|c l1 IH]; simpl; [reflexivity|].
  destruct (find i c); [reflexivity | exact IH].
Qed.

Lemma update_not_in i f n : ~ In i (ids n) -> update i f n = n.
Proof.
  induction n as [j p cs IH] using node_forest_ind. intros Hn.
  simpl in *. destruct (Nat.eqb_spec j i) as [->|_]; [exfalso; apply Hn; now left|].
  f_equal.
  assert (Hcs : ~ In i (flat_map ids cs)) by (intros F; apply Hn; now right).
  clear Hn. induction cs as [|c cs IHcs]; simpl; [reflexivity|].
  inversion IH as [|? ? Hc Hrest]; subst.
  simpl in Hcs. rewrite in_app_iff in Hcs.
  rewrite Hc by tauto. f_equal. apply IHcs; [assumption | tauto].
Qed.

Lemma update_in_not_in i f l : ~ In i (forest_ids l) -> update_in i f l = l.
Proof.
  unfold update_in, forest_ids.
  induction l as [|c l IH]; simpl; [reflexivity|].
  intros Hn. rewrite in_app_iff in Hn.
  rewrite update_not_in by tauto. f_equal. apply IH. tauto.
Qed.

Lemma detach_not_in i l : ~ In i (forest_ids l) -> detach i l = l.
Proof.
  unfold forest_ids.
  induction l as [|c l IHl]; simpl; [reflexivity|].
  intros Hn. rewrite in_app_iff in Hn.
  assert (Hc : ~ In i (ids c)) by tauto.
  assert (Hroot : is_not i c = true).
  { unfold is_not. destruct c as [j p cs]. simpl in *.
    destruct (Nat.eqb_spec j i) as [->|_]; [exfalso; apply Hc; now left | reflexivity]. }
  rewrite Hroot, IHl by tauto. f_equal.
  clear Hn Hroot IHl. revert Hc.
  induction c as [j p cs IH] using node_forest_ind. intros Hc.
  rewrite prune_node. f_equal. simpl in Hc.
  assert (Hcs : ~ In i (flat_map ids cs)) by tauto. clear Hc.
  induction cs as [|d cs IHcs]; simpl; [reflexivity|].
  inversion IH as [|? ? Hd Hrest]; subst.
  simpl in Hcs. rewrite in_app_iff in Hcs.
  assert (Hdroot : is_not i d = true).
  { unfold is_not. destruct d as [k q ds]. simpl in *.
    destruct (Nat.eqb_spec k i) as [->|_]; [exfalso; apply Hcs; left; now left | reflexivity]. }
  rewrite Hdroot, Hd by tauto. f_equal. apply IHcs; [assumption | tauto].
Qed.

Lemma detach_app i l1 l2 : detach i (l1 ++ l2) = detach i l1 ++ detach i l2.
Proof.
  induction l1 as [|c l1 IH]; simpl; [reflexivity|].
  destruct (is_not i c); simpl; rewrite IH; reflexivity.
Qed.

Lemma ids_relabel k n : ids (relabel k n) = seq k (size n).
Proof.
  revert k. induction n as [j p cs IH] using node_forest_ind. intros k.
  rewrite relabel_node. simpl. f_equal. generalize (S k) as m.
  induction cs as [|c cs IHcs]; intros m; simpl; [reflexivity|].
  inversion IH as [|? ? Hc Hrest]; subst.
  rewrite Hc, IHcs by assumption. symmetry. apply seq_app.
Qed.

Lemma fresh_gt l j : In j (forest_ids l) -> j < fresh l.
Proof.
  intros Hj. unfold fresh.
  assert (H : list_max (forest_ids l) <= list_max (forest_ids l)) by lia.
  rewrite list_max_le in H. rewrite Forall_forall in H.
  specialize (H j Hj). lia.
Qed.

Lemma fresh_not_in l : ~ In (fresh l) (forest_ids l).
Proof. intros H. apply fresh_gt in H. lia. Qed.

Lemma relabel_from_ids cs : forall m,
  forest_ids (relabel_from m cs) = seq m (list_sum (map size cs)).
Proof.
  unfold forest_ids.
  induction cs as [|c cs IH]; intros m; simpl; [reflexivity|].
  rewrite ids_relabel, IH. symmetry. apply seq_app.
Qed.

Lemma relabel_root_unique k cs :
  ~ In k (forest_ids (relabel_from (S k) cs)).
Proof. rewrite relabel_from_ids, in_seq. lia. Qed.

(** A node that has just been appended to the page under a new identity. *)
Lemma find_new_root k C p cs :
  ~ In k (forest_ids C) ->
  find_in k (C ++ [Node k p cs]) = Some (Node k p cs).
Proof.
  intros HC. rewrite find_in_app, find_in_not_in by assumption.
  simpl. rewrite Nat.eqb_refl. reflexivity.
Qed.

Lemma update_new_root k f C p cs :
  ~ In k (forest_ids C) -> ~ In k (forest_ids cs) ->
  update_in k f (C ++ [Node k p cs]) = C ++ [Node k (f p) cs].
Proof.
  intros HC Hcs. unfold update_in. rewrite map_app.
  fold (update_in k f C). rewrite update_in_not_in by assumption.
  simpl. rewrite Nat.eqb_refl. fold (update_in k f cs).
  rewrite update_in_not_in by assumption. reflexivity.
Qed.

Lemma detach_new_root k C p cs :
  ~ In k (forest_ids C) -> detach k (C ++ [Node k p cs]) = C.
Proof.
  intros HC. rewrite detach_app, detach_not_in by assumption.
  simpl. unfold is_not. simpl. rewrite Nat.eqb_refl. simpl. apply app_nil_r.
Qed.

(** * Facts about the failure schedule *)

Lemma host_call_ok {A : Type} (op : Js A) h :
  hd None (failures h) = None -> host_call op h = op (rest_of h).
Proof.
  unfold host_call, rest_of. destruct (failures h) as [|[e|] fs]; simpl;
    intros H; [reflexivity | discriminate | reflexivity].
Qed.

Lemma host_call_fail {A : Type} (op : Js A) h e :
  hd None (failures h) = Some e -> host_call op h = (rest_of h, Throw e).
Proof.
  unfold host_call, rest_of. destruct (failures h) as [|[e'|] fs]; simpl;
    intros H; [discriminate | congruence | discriminate].
Qed.

Lemma quiet_calm n : forall h, failures h = [] -> calm n h.
Proof.
  induction n as [|n IH]; intros h Hq; simpl; [exact I|].
  split; [rewrite Hq; reflexivity|]. apply IH. simpl. rewrite Hq. reflexivity.
Qed.

Lemma calm_add n m : forall h, calm (n + m) h <-> calm n h /\ calm m (skip n h).
Proof.
  induction n as [|n IH]; intros h; simpl; [tauto|].
  rewrite IH. tauto.
Qed.

Lemma skip_add n m : forall h, skip (n + m) h = skip m (skip n h).
Proof. induction n as [|n IH]; intros h; simpl; [reflexivity | apply IH]. Qed.

Lemma failures_skip n : forall h, failures (skip n h) = skipn n (failures h).
Proof.
  induction n as [|n IH]; intros h; simpl; [reflexivity|].
  rewrite IH. simpl. destruct (failures h); [apply skipn_nil | reflexivity].
Qed.

Lemma skip_frame n : forall h,
  children (skip n h) = children h /\ selection (skip n h) = selection h /\
  center (skip n h) = center h /\ in_view (skip n h) = in_view h /\
  fonts (skip n h) = fonts h /\ effects (skip n h) = effects h /\
  fit (skip n h) = fit h.
Proof.
  induction n as [|n IH]; intros h; simpl; [repeat split|].
  destruct (IH (rest_of h)) as (H1 & H2 & H3 & H4 & H5 & H6 & H7).
  repeat split; assumption.
Qed.

Lemma calm_prefix n : forall h fs,
  failures h = repeat None n ++ fs -> calm n h /\ failures (skip n h) = fs.
Proof.
  induction n as [|n IH]; intros h fs Hf; simpl in *; [tauto|].
  rewrite Hf. simpl. split; [split; [reflexivity|]|]; apply (IH (rest_of h) fs);
    simpl; rewrite Hf; reflexivity.
Qed.

(** * The duplication loop *)

(** One turn on a calm host: six calls of the host API, one new child of
    the page. *)
Lemma duplicate_node_calm node src h :
  calm 6 h ->
  find_in node (children h) = Some src ->
  duplicate_node node h =
  (with_children (children h ++ [moved (relabel (fresh (children h)) src)]) (skip 6 h),
   Normal (fresh (children h))).
Proof.
  intros (C1 & C2 & C3 & C4 & C5 & C6 & _) Hsrc.
  destruct src as [j p cs]. rewrite relabel_node.
  pose proof (fresh_not_in (children h)) as Hk.
  pose proof (relabel_root_unique (fresh (children h)) cs) as Hu.
  set (k := fresh (children h)) in *.
  set (cs' := relabel_from (S k) cs) in *.
  unfold duplicate_node, bind, ret.
  unfold figma.clone. rewrite host_call_ok by exact C1.
  simpl children. rewrite Hsrc. fold k. rewrite relabel_node. fold cs'.
  unfold figma.get at 1. rewrite host_call_ok by exact C2.
  simpl children. rewrite find_new_root by exact Hk. simpl node_props.
  unfold figma.set at 1. rewrite host_call_ok by exact C3.
  simpl children. rewrite find_new_root, update_new_root by assumption.
  unfold figma.get at 1. rewrite host_call_ok by exact C4.
  simpl children. rewrite find_new_root by exact Hk. simpl node_props.
  unfold figma.set at 1. rewrite host_call_ok by exact C5.
  simpl children. rewrite find_new_root, update_new_root by assumption.
  unfold figma.currentPage_appendChild. rewrite host_call_ok by exact C6.
  simpl children. rewrite find_new_root, detach_new_root by assumption.
  reflexivity.
Qed.

Lemma with_children_same h : with_children (children h) h = h.
Proof. destruct h; reflexivity. Qed.

Lemma calm_with_children n : forall X h, calm n (with_children X h) <-> calm n h.
Proof.
  induction n as [|n IH]; intros X h; simpl; [tauto|].
  change (rest_of (with_children X h)) with (with_children X (rest_of h)).
  rewrite IH. tauto.
Qed.

Lemma skip_with_children n : forall X h,
  skip n (with_children X h) = with_children X (skip n h).
Proof.
  induction n as [|n IH]; intros X h; simpl; [reflexivity|].
  change (rest_of (with_children X h)) with (with_children X (rest_of h)).
  apply IH.
Qed.

Lemma live_app C l i : live C i -> live (C ++ l) i.
Proof.
  unfold live. rewrite find_in_app. destruct (find_in i C); [intros _; discriminate | tauto].
Qed.

Lemma find_in_app_live C l i :
  live C i -> find_in i (C ++ l) = find_in i C.
Proof.
  unfold live. rewrite find_in_app. destruct (find_in i C); [reflexivity | tauto].
Qed.

Lemma moved_relabel k n : moved (relabel k n) = relabel k (moved n).
Proof. destruct n as [j p cs]. reflexivity. Qed.

Lemma ids_moved n : ids (moved n) = ids n.
Proof. destruct n as [j p cs]. reflexivity. Qed.

Lemma node_id_moved_relabel k n : node_id (moved (relabel k n)) = k.
Proof. destruct n as [j p cs]. reflexivity. Qed.

(** The whole loop on a calm host. *)
Lemma duplicate_all_calm nodes : forall h duplicates,
  calm (6 * List.length nodes) h ->
  Forall (live (children h)) nodes ->
  duplicate_all nodes duplicates h =
  (with_children (children h ++ copies (children h) nodes)
     (skip (6 * List.length nodes) h),
   Normal (duplicates ++ map node_id (copies (children h) nodes))).
Proof.
  induction nodes as [|node rest IH]; intros h duplicates Hcalm Hlive.
  - simpl. unfold ret. rewrite !app_nil_r, with_children_same. reflexivity.
  - replace (6 * List.length (node :: rest)) with (6 + 6 * List.length rest)
      in * by (simpl; lia).
    apply calm_add in Hcalm. destruct Hcalm as [H6 Hrest].
    inversion Hlive as [|? ? Hnode Hothers]; subst.
    unfold live in Hnode.
    destruct (find_in node (children h)) as [src|] eqn:Hsrc; [clear Hnode | tauto].
    cbn [duplicate_all copies]. rewrite Hsrc.
    unfold bind at 1. rewrite (duplicate_node_calm node src h H6 Hsrc).
    set (c := moved (relabel (fresh (children h)) src)).
    rewrite IH.
    + cbn [children with_children]. rewrite skip_with_children, skip_add.
      cbn [map]. rewrite <- !app_assoc.
      replace (node_id c) with (fresh (children h))
        by (symmetry; apply node_id_moved_relabel).
      reflexivity.
    + apply calm_with_children. exact Hrest.
    + cbn [children with_children].
      eapply Forall_impl; [|exact Hothers]. intros i Hi. apply live_app. exact Hi.
Qed.

(** * Facts about the copies *)

Lemma length_ids n : List.length (ids n) = size n.
Proof.
  induction n as [j p cs IH] using node_forest_ind. simpl. f_equal.
  induction cs as [|c cs IHcs]; simpl; [reflexivity|].
  inversion IH as [|? ? Hc Hrest]; subst.
  rewrite length_app, Hc, IHcs by assumption. reflexivity.
Qed.

Lemma size_relabel k n : size (relabel k n) = size n.
Proof. rewrite <- !length_ids, ids_relabel, length_seq, length_ids. reflexivity. Qed.

Lemma relabel_relabel n : forall k m, relabel k (relabel m n) = relabel k n.
Proof.
  induction n as [j p cs IH] using node_forest_ind. intros k m.
  rewrite !relabel_node. f_equal.
  generalize (S k) as a. generalize (S m) as b'.
  induction cs as [|c cs IHcs]; intros b' a0; simpl; [reflexivity|].
  inversion IH as [|? ? Hc Hrest]; subst.
  rewrite Hc, size_relabel, IHcs by assumption. reflexivity.
Qed.

Lemma alike_copy k n : alike (moved (relabel k n)) (moved n).
Proof. unfold alike. rewrite moved_relabel, relabel_relabel. reflexivity. Qed.

Lemma copies_length nodes : forall C,
  Forall (live C) nodes -> List.length (copies C nodes) = List.length nodes.
Proof.
  induction nodes as [|i rest IH]; intros C Hlive; simpl; [reflexivity|].
  inversion Hlive as [|? ? Hi Hrest]; subst. unfold live in Hi.
  destruct (find_in i C) as [src|]; [|tauto]. simpl. f_equal. apply IH.
  eapply Forall_impl; [|exact Hrest]. intros j Hj. apply live_app. exact Hj.
Qed.

Lemma duplicate_of_copy C i src k :
  find_in i C = Some src -> duplicate_of C i (moved (relabel k src)).
Proof.
  intros Hsrc. exists src. split; [exact Hsrc|].
  destruct src as [j p cs]. repeat split. apply alike_copy.
Qed.

Lemma copies_duplicate nodes : forall C,
  Forall (live C) nodes ->
  Forall2 (duplicate_of C) nodes (copies C nodes).
Proof.
  induction nodes as [|i rest IH]; intros C Hlive; simpl; [constructor|].
  inversion Hlive as [|? ? Hi Hrest]; subst. unfold live in Hi.
  destruct (find_in i C) as [src|] eqn:Hsrc; [|tauto].
  constructor; [apply duplicate_of_copy; exact Hsrc|].
  set (c := moved (relabel (fresh C) src)).
  assert (Hlive' : Forall (live (C ++ [c])) rest).
  { eapply Forall_impl; [|exact Hrest]. intros j Hj. apply live_app. exact Hj. }
  specialize (IH (C ++ [c]) Hlive').
  clear - IH Hrest. revert IH. generalize (copies (C ++ [c]) rest) as cl.
  induction rest as [|j rest IHr]; intros cl H2; inversion H2; subst; constructor.
  - destruct H1 as (s0 & Hs0 & Hal). exists s0. split; [|exact Hal].
    inversion Hrest; subst. rewrite find_in_app_live in Hs0; assumption.
  - apply IHr; [inversion Hrest; assumption | assumption].
Qed.

Lemma copies_new nodes : forall C,
  NoDup (forest_ids (copies C nodes)) /\
  (forall j, In j (forest_ids (copies C nodes)) -> ~ In j (forest_ids C)).
Proof.
  induction nodes as [|i rest IH]; intros C; simpl.
  - split; [constructor | intros j []].
  - destruct (find_in i C) as [src|]; [|split; [constructor | intros j []]].
    set (k := fresh C). set (c := moved (relabel k src)).
    destruct (IH (C ++ [c])) as [Hnd Hnew].
    assert (Hc : ids c = seq k (size src)).
    { unfold c. rewrite ids_moved. apply ids_relabel. }
    change (forest_ids (c :: copies (C ++ [c]) rest))
      with (ids c ++ forest_ids (copies (C ++ [c]) rest)).
    split.
    + apply NoDup_app; [rewrite Hc; apply seq_NoDup | exact Hnd |].
      intros j Hj Hj'. apply (Hnew j Hj'). rewrite forest_ids_app, in_app_iff.
      right. unfold forest_ids. simpl. rewrite app_nil_r. exact Hj.
    + intros j Hj HC. apply in_app_iff in Hj. destruct Hj as [Hj|Hj].
      * rewrite Hc, in_seq in Hj. apply fresh_gt in HC. unfold k in Hj. lia.
      * apply (Hnew j Hj). rewrite forest_ids_app, in_app_iff. now left.
Qed.

(** * The copy handler on a calm host *)

Lemma calm_ext n : forall h1 h2,
  failures h1 = failures h2 -> calm n h1 -> calm n h2.
Proof.
  induction n as [|n IH]; intros h1 h2 Hf; simpl; [tauto|].
  intros [Hhd Hrest]. split; [rewrite <- Hf; exact Hhd|].
  apply (IH (rest_of h1)); [simpl; rewrite Hf; reflexivity | exact Hrest].
Qed.

Lemma children_skip n h : children (skip n h) = children h.
Proof. apply skip_frame. Qed.

Lemma selection_skip n h : selection (skip n h) = selection h.
Proof. apply skip_frame. Qed.

Lemma effects_skip n h : effects (skip n h) = effects h.
Proof. apply skip_frame. Qed.

Lemma center_skip n h : center (skip n h) = center h.
Proof. apply skip_frame. Qed.

Lemma in_view_skip n h : in_view (skip n h) = in_view h.
Proof. apply skip_frame. Qed.

Lemma fit_skip n h : fit (skip n h) = fit h.
Proof. apply skip_frame. Qed.

Lemma fonts_skip n h : fonts (skip n h) = fonts h.
Proof. apply skip_frame. Qed.

Create Rewrite HintDb host_fields.
#[local] Hint Rewrite children_skip selection_skip effects_skip center_skip
  in_view_skip fit_skip fonts_skip : host_fields.

(** Read a field of a state through the updates that built it. *)
Ltac project :=
  repeat first
    [ progress cbn [children selection in_view center effects fonts fit
                    with_children with_selection with_effects with_viewport
                    with_fonts with_failures rest_of fst snd]
    | progress autorewrite with host_fields ].

Lemma length_zero_nil {A : Type} (l : list A) :
  l <> [] -> Nat.eqb (List.length l) 0 = false.
Proof. destruct l; [tauto | reflexivity]. Qed.

(** Bring the failure schedule of a state to the form
    [skipn n (tl (... (failures h)))]. *)
Ltac schedule :=
  cbn [skip rest_of failures selection with_children with_selection
       with_effects with_viewport with_fonts with_failures];
  rewrite ?failures_skip;
  cbn [skip rest_of failures selection with_children with_selection
       with_effects with_viewport with_fonts with_failures].

Ltac schedule_in H :=
  cbn [skip rest_of failures selection with_children with_selection
       with_effects with_viewport with_fonts with_failures] in H;
  rewrite ?failures_skip in H;
  cbn [skip rest_of failures selection with_children with_selection
       with_effects with_viewport with_fonts with_failures] in H.

(** The body of the copy handler when none of its [4 + 6 N] calls of the
    host API raises. *)
Lemma handleCopyLayer_body_calm url title h :
  calm (2 + (6 * List.length (selection h) + 2)) h ->
  selection h <> [] ->
  Forall (live (children h)) (selection h) ->
  exists h',
    handleCopyLayer_body url title h = (h', Normal tt) /\
    children h' = children h ++ copies (children h) (selection h) /\
    selection h' = map node_id (copies (children h) (selection h)) /\
    in_view h' = selection h' /\
    center h' = fit h (children h') (selection h') /\
    effects h' = effects h ++ [Notify (ready_to_copy title)] /\
    fonts h' = fonts h.
Proof.
  intros Hcalm Hsel Hlive.
  apply calm_add in Hcalm. destruct Hcalm as [(C1 & C2 & _) Hcalm].
  apply calm_add in Hcalm. destruct Hcalm as [Hloop (C3 & C4 & _)].
  schedule_in C3. schedule_in C4.
  eexists. split.
  - unfold handleCopyLayer_body, bind.
    unfold figma.get_selection. rewrite host_call_ok by exact C1.
    rewrite length_zero_nil by exact Hsel.
    unfold figma.notify. rewrite host_call_ok by exact C2.
    rewrite duplicate_all_calm;
      [ | eapply calm_ext; [|exact Hloop]; reflexivity | exact Hlive ].
    unfold figma.set_selection. rewrite host_call_ok by (schedule; exact C3).
    unfold figma.scrollAndZoomIntoView.
    rewrite host_call_ok by (schedule; exact C4).
    reflexivity.
  - project. repeat split; reflexivity.
Qed.

Lemma calm_weaken n m h : n <= m -> calm m h -> calm n h.
Proof.
  intros Hle Hc. replace m with (n + (m - n)) in Hc by lia.
  apply calm_add in Hc. tauto.
Qed.

(** * The insert handler on a calm host *)

Lemma graft_not_in k c n : ~ In k (ids n) -> graft k c n = n.
Proof.
  induction n as [j p cs IH] using node_forest_ind. intros Hn.
  simpl in *. destruct (Nat.eqb_spec j k) as [->|_]; [exfalso; apply Hn; now left|].
  rewrite app_nil_r. f_equal.
  assert (Hcs : ~ In k (flat_map ids cs)) by tauto. clear Hn.
  induction cs as [|d cs IHcs]; simpl; [reflexivity|].
  inversion IH as [|? ? Hd Hrest]; subst.
  simpl in Hcs. rewrite in_app_iff in Hcs.
  rewrite Hd by tauto. f_equal. apply IHcs; [assumption | tauto].
Qed.

Lemma graft_new_root k c C p :
  ~ In k (forest_ids C) ->
  map (graft k c) (C ++ [Node k p []]) = C ++ [Node k p [c]].
Proof.
  intros HC. rewrite map_app. f_equal.
  - unfold forest_ids in HC. induction C as [|d C IH]; simpl; [reflexivity|].
    simpl in HC. rewrite in_app_iff in HC.
    rewrite graft_not_in, IH by tauto. reflexivity.
  - simpl. rewrite Nat.eqb_refl. reflexivity.
Qed.

Lemma fresh_snoc C p cs :
  forest_ids cs = [] -> fresh (C ++ [Node (fresh C) p cs]) = S (fresh C).
Proof.
  intros Hcs. unfold fresh at 1. rewrite forest_ids_app. unfold forest_ids at 2.
  simpl. fold (forest_ids cs). rewrite Hcs. simpl.
  rewrite list_max_app. simpl. unfold fresh. lia.
Qed.

(** The next call of the host API raises nothing, by [C]. *)
Ltac call_ok C :=
  rewrite host_call_ok by exact C;
  cbn [children fonts center with_children with_fonts with_effects
       with_selection with_viewport rest_of with_failures].

Lemma handleInsertDesign_body_calm url title h :
  calm 20 h ->
  exists h',
    handleInsertDesign_body url title h = (h', Normal tt) /\
    children h' = children h ++
      [Node (fresh (children h)) (placeholder title (center h))
         [Node (S (fresh (children h))) (label title) []]] /\
    selection h' = [fresh (children h)] /\
    in_view h' = [fresh (children h)] /\
    center h' = fit h (children h') [fresh (children h)] /\
    effects h' = effects h ++ [Notify ("✓ Inserted design: " ++ title)] /\
    fonts h' = figma.Inter_Regular :: fonts h.
Proof.
  intros Hcalm.
  destruct Hcalm as (C1 & C2 & C3 & C4 & C5 & C6 & C7 & C8 & C9 & C10 & C11 & C12
                     & C13 & C14 & C15 & C16 & C17 & C18 & C19 & C20 & _).
  pose proof (fresh_not_in (children h)) as Hk.
  set (k := fresh (children h)) in *.
  assert (Hnil : ~ In k (forest_ids [])) by (intros []).
  eexists. split.
  - unfold handleInsertDesign_body, bind.
    unfold figma.createFrame, figma.create at 1. call_ok C1. fold k.
    unfold figma.set at 1. call_ok C2.
    rewrite find_new_root, update_new_root by assumption.
    unfold figma.resize.
    change (PrimFloat.ltb 400 0.01 || PrimFloat.ltb 300 0.01)%bool with false.
    cbn iota.
    unfold figma.set at 1. call_ok C3.
    rewrite find_new_root, update_new_root by assumption.
    unfold figma.get_center at 1. call_ok C4.
    unfold figma.get_center at 1. call_ok C5.
    unfold figma.set at 1. call_ok C6.
    rewrite find_new_root, update_new_root by assumption.
    unfold figma.set at 1. call_ok C7.
    rewrite find_new_root, update_new_root by assumption.
    unfold figma.set at 1. call_ok C8.
    rewrite find_new_root, update_new_root by assumption.
    unfold figma.createText, figma.create. call_ok C9.
    rewrite fresh_snoc by reflexivity. fold k.
    match goal with |- context [children h ++ [?F]] => set (frame := F) end.
    assert (Hk2 : ~ In (S k) (forest_ids (children h ++ [frame]))).
    { replace (S k) with (fresh (children h ++ [frame]))
        by (apply fresh_snoc; reflexivity).
      apply fresh_not_in. }
    assert (Hnil2 : ~ In (S k) (forest_ids [])) by (intros []).
    unfold figma.loadFontAsync. call_ok C10.
    unfold figma.set_text at 1. call_ok C11.
    rewrite find_new_root, update_new_root by assumption.
    change (existsb (font_eqb figma.Inter_Regular) (figma.Inter_Regular :: fonts h))
      with true. cbn iota.
    unfold figma.set_text at 1. call_ok C12.
    rewrite find_new_root, update_new_root by assumption.
    change (existsb (font_eqb figma.Inter_Regular) (figma.Inter_Regular :: fonts h))
      with true. cbn iota.
    unfold figma.set at 1. call_ok C13.
    rewrite find_new_root, update_new_root by assumption.
    unfold figma.set at 1. call_ok C14.
    rewrite find_new_root, update_new_root by assumption.
    unfold figma.set at 1. call_ok C15.
    rewrite find_new_root, update_new_root by assumption.
    unfold figma.appendChild. call_ok C16.
    rewrite find_new_root, detach_new_root by assumption.
    unfold frame. rewrite find_new_root, graft_new_root by assumption.
    unfold figma.currentPage_appendChild. call_ok C17.
    rewrite find_new_root, detach_new_root by assumption.
    unfold figma.set_selection. call_ok C18.
    unfold figma.scrollAndZoomIntoView. call_ok C19.
    unfold figma.notify. call_ok C20.
    reflexivity.
  - project. repeat split; reflexivity.
Qed.

(** * Runs on the small host *)

Example copy_run :
  let h' := fst (onmessage (PreviewActionMessage "copy" "https://figma.com/x" "Card")
                   (demo_host [3; 1] 100 100 [])) in
  map summary (children h') =
    [ (1, "A", (10, 10)%float, 0); (2, "B", (0.5, -7)%float, 0);
      (3, "Frame", (0, 0)%float, 1);
      (5, "Frame", (20, 20)%float, 1); (7, "A", (30, 30)%float, 0) ] /\
  selection h' = [5; 7] /\ in_view h' = [5; 7] /\
  effects h' = [Notify (ready_to_copy "Card")].
Proof. vm_compute. repeat split. Qed.

Example copy_run_interrupted :
  let h' := fst (onmessage (PreviewActionMessage "copy" "https://figma.com/x" "Card")
                   (demo_host [4; 1] 100 100
                      (repeat None 5 ++ [Some (OtherValue "denied")]))) in
  map summary (children h') =
    [ (1, "A", (10, 10)%float, 0); (2, "B", (0.5, -7)%float, 0);
      (3, "Frame", (0, 0)%float, 1); (5, "C", (25, 5)%float, 0) ] /\
  selection h' = [4; 1] /\
  effects h' = [Notify (ready_to_copy "Card");
                Notify "Error copying layer: Unknown error"].
Proof. vm_compute. repeat split. Qed.

Example insert_run_example :
  let h' := fst (onmessage (PreviewActionMessage "insert" "https://figma.com/x" "Card")
                   (demo_host [] 12.5 (-3) [])) in
  map summary (children h') =
    [ (1, "A", (10, 10)%float, 0); (2, "B", (0.5, -7)%float, 0);
      (3, "Frame", (0, 0)%float, 1); (5, "Card", (-187.5, -153)%float, 1) ] /\
  selection h' = [5] /\ fonts h' = [figma.Inter_Regular] /\
  effects h' = [Notify "✓ Inserted design: Card"].
Proof. vm_compute. repeat split. Qed.

Example goto_run_refused :
  let h' := fst (onmessage (PreviewActionMessage "goto" "https://figma.com/x" "Card")
                   (demo_host [1] 0 0 [Some (ErrorObject "Blocked")])) in
  document h' = document (demo_host [1] 0 0 []) /\
  effects h' = [Notify "Error opening file: Blocked"].
Proof. vm_compute. repeat split. Qed.

Example user_message_run :
  onmessage (UserMessage "login") (demo_host [1] 0 0 []) =
  (with_effects [ConsoleLog ["User message:"; "login"]] (demo_host [1] 0 0 []),
   Normal tt).
Proof. reflexivity. Qed.

(** * The claims *)

(** C1. A copy message on a non-empty selection of [N] nodes, when the host
    raises nothing: the page gains exactly [N] children behind the ones it
    had, all under identities the page did not use; the i-th is the i-th
    selected node as it was when the message arrived, moved by (20, 20) and
    alike in everything else; the selection becomes these [N] nodes in the
    order of the old selection, and the viewport is scrolled and zoomed to
    show them; the one effect is the notification of readiness. *)
Theorem copy_duplicates_selection (h : Host) (url title : string) :
  calm (4 + 6 * List.length (selection h)) h ->
  selection h <> [] ->
  Forall (live (children h)) (selection h) ->
  let h' := fst (onmessage (PreviewActionMessage "copy" url title) h) in
  exists clones : Forest,
    children h' = children h ++ clones /\
    List.length clones = List.length (selection h) /\
    Forall2 (duplicate_of (children h)) (selection h) clones /\
    NoDup (forest_ids clones) /\
    (forall j, In j (forest_ids clones) -> ~ In j (forest_ids (children h))) /\
    selection h' = map node_id clones /\
    in_view h' = map node_id clones /\
    center h' = fit h (children h') (map node_id clones) /\
    effects h' = effects h ++ [Notify (ready_to_copy title)].
Proof.
  intros Hcalm Hsel Hlive h'.
  destruct (handleCopyLayer_body_calm url title h)
    as (h1 & Hrun & Hch & Hs & Hv & Hc & Heff & _);
    [ eapply calm_weaken; [|exact Hcalm]; lia | exact Hsel | exact Hlive | ].
  assert (Hh' : h' = h1).
  { unfold h'. cbn [onmessage String.eqb Ascii.eqb Bool.eqb]. cbn.
    unfold call_async, handleCopyLayer, try_catch. rewrite Hrun. reflexivity. }
  rewrite Hh'. exists (copies (children h) (selection h)).
  destruct (copies_new (selection h) (children h)) as [Hnd Hnew].
  repeat split.
  - exact Hch.
  - apply copies_length. exact Hlive.
  - apply copies_duplicate. exact Hlive.
  - exact Hnd.
  - exact Hnew.
  - exact Hs.
  - rewrite Hv. exact Hs.
  - rewrite Hc, Hs. reflexivity.
  - exact Heff.
Qed.

Lemma copy_duplicates_selection_witness :
  let h := demo_host [4; 1] 100 100 [] in
  let h' := fst (onmessage (PreviewActionMessage "copy" "https://figma.com/x" "Card") h) in
  exists clones : Forest,
    children h' = children h ++ clones /\
    List.length clones = List.length (selection h) /\
    Forall2 (duplicate_of (children h)) (selection h) clones /\
    NoDup (forest_ids clones) /\
    (forall j, In j (forest_ids clones) -> ~ In j (forest_ids (children h))) /\
    selection h' = map node_id clones /\
    in_view h' = map node_id clones /\
    center h' = fit h (children h') (map node_id clones) /\
    effects h' = effects h ++ [Notify (ready_to_copy "Card")].
Proof.
  apply (copy_duplicates_selection (demo_host [4; 1] 100 100 [])).
  - apply quiet_calm. reflexivity.
  - discriminate.
  - repeat constructor; unfold live; simpl; discriminate.
Defined.

(** C5. A copy message while nothing is selected leaves the document (the
    page, the selection, the viewport) and the loaded fonts as they were,
    whatever the host does; when the handler's two calls of the host API
    raise nothing, its one effect is the notification that asks for a
    selection. *)
Theorem copy_empty_selection (h : Host) (url title : string) :
  selection h = [] ->
  let h' := fst (onmessage (PreviewActionMessage "copy" url title) h) in
  document h' = document h /\
  fonts h' = fonts h /\
  (calm 2 h ->
   effects h' = effects h ++ [Notify "Please select a layer to copy first"] /\
   notifications h' = notifications h ++ ["Please select a layer to copy first"]).
Proof.
  intros Hsel h'. unfold h'. cbn [onmessage].
  change (String.eqb "copy" "copy") with true. cbn iota.
  split; [|split].
  - destruct h as [C sel c v fn ef fl ft]. simpl in Hsel. subst sel.
    destruct fl as [|[e1|] [|[e2|] [|[e3|] fl]]]; reflexivity.
  - destruct h as [C sel c v fn ef fl ft]. simpl in Hsel. subst sel.
    destruct fl as [|[e1|] [|[e2|] [|[e3|] fl]]]; reflexivity.
  - intros (C1 & C2 & _).
    unfold call_async, handleCopyLayer, try_catch, handleCopyLayer_body, bind.
    unfold figma.get_selection. rewrite host_call_ok by exact C1.
    cbn [selection rest_of with_failures]. rewrite Hsel. cbn [List.length Nat.eqb].
    unfold figma.notify. rewrite host_call_ok by exact C2.
    unfold notifications. project.
    split; [reflexivity|]. rewrite flat_map_app. reflexivity.
Qed.

Lemma copy_empty_selection_witness :
  let h := demo_host [] 100 100 [] in
  let h' := fst (onmessage (PreviewActionMessage "copy" "https://figma.com/x" "Card") h) in
  selection h = [] /\ calm 2 h /\
  document h' = document h /\
  effects h' = effects h ++ [Notify "Please select a layer to copy first"].
Proof.
  assert (Hsel : selection (demo_host [] 100 100 []) = []) by reflexivity.
  assert (Hcalm : calm 2 (demo_host [] 100 100 [])) by (simpl; tauto).
  split; [exact Hsel|]. split; [exact Hcalm|].
  destruct (copy_empty_selection (demo_host [] 100 100 []) "https://figma.com/x" "Card"
              Hsel) as (Hdoc & _ & Heff).
  split; [exact Hdoc | exact (proj1 (Heff Hcalm))].
Defined.

(** C6. A goto message never changes the document or the fonts, whatever
    the host does; when the handler's two calls of the host API raise
    nothing, its effects are one request to open [url] outside, then one
    notification that names [title]. *)
Theorem goto_opens_and_notifies (h : Host) (url title : string) :
  let h' := fst (onmessage (PreviewActionMessage "goto" url title) h) in
  document h' = document h /\
  fonts h' = fonts h /\
  (calm 2 h ->
   effects h' = effects h ++ [OpenExternal url; Notify ("Opening: " ++ title)] /\
   opened h' = opened h ++ [url] /\
   notifications h' = notifications h ++ [("Opening: " ++ title)%string]).
Proof.
  intros h'. unfold h'. cbn [onmessage].
  change (String.eqb "goto" "copy") with false.
  change (String.eqb "goto" "insert") with false.
  change (String.eqb "goto" "goto") with true. cbn iota.
  split; [|split].
  - destruct h as [C sel c v fn ef fl ft].
    destruct fl as [|[e1|] [|[e2|] [|[e3|] fl]]]; reflexivity.
  - destruct h as [C sel c v fn ef fl ft].
    destruct fl as [|[e1|] [|[e2|] [|[e3|] fl]]]; reflexivity.
  - intros (C1 & C2 & _).
    unfold call_async, handleGoToFile, try_catch, handleGoToFile_body, bind.
    unfold figma.openExternal. rewrite host_call_ok by exact C1.
    unfold figma.notify. rewrite host_call_ok by exact C2.
    unfold opened, notifications. project.
    rewrite <- app_assoc. repeat split.
    + rewrite !flat_map_app. reflexivity.
    + rewrite !flat_map_app. reflexivity.
Qed.

Lemma goto_opens_and_notifies_witness :
  let h := demo_host [1] 100 100 [] in
  let h' := fst (onmessage (PreviewActionMessage "goto" "https://figma.com/x" "Card") h) in
  calm 2 h /\
  effects h' = effects h ++ [OpenExternal "https://figma.com/x"; Notify "Opening: Card"].
Proof.
  assert (Hcalm : calm 2 (demo_host [1] 100 100 [])) by (simpl; tauto).
  split; [exact Hcalm|].
  apply (goto_opens_and_notifies (demo_host [1] 100 100 []) "https://figma.com/x" "Card").
  exact Hcalm.
Defined.

(** C7. A preview-action message whose action is none of "copy", "insert"
    and "goto" leaves the host exactly as it was: no call of the host API is
    made, nothing is mutated, nothing is notified. *)
Theorem unknown_action_ignored (h : Host) (action url title : string) :
  action <> "copy" -> action <> "insert" -> action <> "goto" ->
  onmessage (PreviewActionMessage action url title) h = (h, Normal tt).
Proof.
  intros Hc Hi Hg. unfold onmessage.
  apply String.eqb_neq in Hc, Hi, Hg. rewrite Hc, Hi, Hg. reflexivity.
Qed.

Lemma unknown_action_ignored_witness :
  let h := demo_host [1] 100 100 [Some (ErrorObject "down")] in
  onmessage (PreviewActionMessage "delete" "https://figma.com/x" "Card") h = (h, Normal tt).
Proof.
  apply (unknown_action_ignored _ "delete"); discriminate.
Defined.

(** ** The insert handler *)

Lemma onmessage_insert url title h :
  onmessage (PreviewActionMessage "insert" url title) h =
  call_async (handleInsertDesign url title) h.
Proof. reflexivity. Qed.

Lemma insert_run url title h h1 :
  handleInsertDesign_body url title h = (h1, Normal tt) ->
  fst (onmessage (PreviewActionMessage "insert" url title) h) = h1.
Proof.
  intros Hrun. rewrite onmessage_insert.
  unfold call_async, handleInsertDesign, try_catch. rewrite Hrun. reflexivity.
Qed.

(** C2. An insert message, when the host raises nothing: the page gains
    one child, a frame under an identity the page did not use, whose name
    is [title] as given and whose size is 400 by 300, for every [title]
    and [url]. *)
Theorem insert_names_and_sizes_frame (h : Host) (url title : string) :
  calm 20 h ->
  let h' := fst (onmessage (PreviewActionMessage "insert" url title) h) in
  exists frame : SceneNode,
    children h' = children h ++ [frame] /\
    ~ In (node_id frame) (forest_ids (children h)) /\
    type (node_props frame) = FRAME /\
    name (node_props frame) = title /\
    width (node_props frame) = 400%float /\
    height (node_props frame) = 300%float.
Proof.
  intros Hcalm h'.
  destruct (handleInsertDesign_body_calm url title h Hcalm) as (h1 & Hrun & Hch & _).
  unfold h'. rewrite (insert_run url title h h1 Hrun).
  eexists. split; [exact Hch|]. cbn [node_id node_props placeholder type name width height].
  split; [apply fresh_not_in|]. repeat split.
Qed.

Lemma insert_names_and_sizes_frame_witness :
  let h := demo_host [1] 12.5 (-3) [] in
  let h' := fst (onmessage (PreviewActionMessage "insert" "not a url" "") h) in
  calm 20 h /\
  exists frame : SceneNode,
    children h' = children h ++ [frame] /\
    ~ In (node_id frame) (forest_ids (children h)) /\
    type (node_props frame) = FRAME /\
    name (node_props frame) = "" /\
    width (node_props frame) = 400%float /\
    height (node_props frame) = 300%float.
Proof.
  assert (Hcalm : calm 20 (demo_host [1] 12.5 (-3) [])) by (apply quiet_calm; reflexivity).
  split; [exact Hcalm|].
  exact (insert_names_and_sizes_frame (demo_host [1] 12.5 (-3) []) "not a url" "" Hcalm).
Defined.

Lemma restores_upto_spec len : forall c n,
  restores_upto c len = true -> n < len ->
  restores 200 (count_from c n) = true /\ restores 150 (count_from c n) = true /\
  restores 200 (- count_from c n) = true /\ restores 150 (- count_from c n) = true.
Proof.
  induction len as [|len IH]; intros c n Hall Hn; [lia|].
  simpl in Hall.
  destruct (restores 200 c) eqn:E1; [|discriminate].
  destruct (restores 150 c) eqn:E2; [|discriminate].
  destruct (restores 200 (- c)) eqn:E3; [|discriminate].
  destruct (restores 150 (- c)) eqn:E4; [|discriminate].
  destruct n as [|n]; simpl; [tauto|].
  apply IH; [exact Hall | lia].
Qed.

Lemma restores_span : restores_upto 0 (S span) = true.
Proof. vm_compute. reflexivity. Qed.

Lemma on_grid_restores c :
  on_grid span c -> restores 200 c = true /\ restores 150 c = true.
Proof.
  intros (n & Hn & Hc).
  destruct (restores_upto_spec (S span) 0%float n restores_span) as (H1 & H2 & H3 & H4);
    [lia|].
  destruct Hc as [-> | ->]; tauto.
Qed.

(** C3, as stated, fails: with the viewport centre at (0.1, 0.1) the
    frame is at x = 0.1 - 200, a difference that is rounded, and adding 200
    back gives 0.09999999999999432, not 0.1. *)
Lemma insert_center_not_restored :
  ~ (forall (h : Host) (url title : string),
       calm 20 h ->
       let h' := fst (onmessage (PreviewActionMessage "insert" url title) h) in
       exists frame : SceneNode,
         children h' = children h ++ [frame] /\
         strict_equal (x (node_props frame) + 200) (Vector.x (center h)) = true /\
         strict_equal (y (node_props frame) + 150) (Vector.y (center h)) = true).
Proof.
  intros Hclaim.
  destruct (Hclaim (demo_host [] 0.1 0.1 []) "https://figma.com/x" "Login Screen")
    as (frame & Hch & Hx & _); [apply quiet_calm; reflexivity|].
  vm_compute in Hch. injection Hch as Hframe. subst frame.
  vm_compute in Hx. discriminate Hx.
Qed.

(** C3, amended. An insert message, when the host raises nothing: the
    frame's x is the double [center.x - 200] and its y the double
    [center.y - 150], for the viewport centre as it is when the message
    arrives and with no rounding but that of the subtraction; adding 200
    and 150 back gives the centre for every coordinate that is a multiple
    of 1/8 of magnitude up to 131072, negative ones included. *)
Theorem insert_centers_frame (h : Host) (url title : string) :
  calm 20 h ->
  let h' := fst (onmessage (PreviewActionMessage "insert" url title) h) in
  exists frame : SceneNode,
    children h' = children h ++ [frame] /\
    x (node_props frame) = (Vector.x (center h) - 200)%float /\
    y (node_props frame) = (Vector.y (center h) - 150)%float /\
    (on_grid span (Vector.x (center h)) ->
     strict_equal (x (node_props frame) + 200) (Vector.x (center h)) = true) /\
    (on_grid span (Vector.y (center h)) ->
     strict_equal (y (node_props frame) + 150) (Vector.y (center h)) = true).
Proof.
  intros Hcalm h'.
  destruct (handleInsertDesign_body_calm url title h Hcalm) as (h1 & Hrun & Hch & _).
  unfold h'. rewrite (insert_run url title h h1 Hrun).
  eexists. split; [exact Hch|].
  cbn [node_props placeholder x y]. repeat split.
  - intros Hw. apply (on_grid_restores _ Hw).
  - intros Hw. apply (on_grid_restores _ Hw).
Qed.

Lemma insert_centers_frame_witness :
  let h := demo_host [1] (-37) 12.5 [] in
  let h' := fst (onmessage (PreviewActionMessage "insert" "https://figma.com/x" "Card") h) in
  calm 20 h /\ on_grid span (-37) /\ on_grid span 12.5 /\
  exists frame : SceneNode,
    children h' = children h ++ [frame] /\
    x (node_props frame) = (-237)%float /\
    y (node_props frame) = (-137.5)%float /\
    strict_equal (x (node_props frame) + 200) (-37) = true /\
    strict_equal (y (node_props frame) + 150) 12.5 = true.
Proof.
  assert (Hcalm : calm 20 (demo_host [1] (-37) 12.5 [])) by (apply quiet_calm; reflexivity).
  assert (Hx : on_grid span (-37)).
  { exists 296. split; [apply Nat.leb_le; vm_compute; reflexivity | right; reflexivity]. }
  assert (Hy : on_grid span 12.5).
  { exists 100. split; [apply Nat.leb_le; vm_compute; reflexivity | left; reflexivity]. }
  split; [exact Hcalm|]. split; [exact Hx|]. split; [exact Hy|].
  destruct (insert_centers_frame (demo_host [1] (-37) 12.5 [])
              "https://figma.com/x" "Card" Hcalm) as (frame & Hch & Ex & Ey & Rx & Ry).
  exists frame. split; [exact Hch|]. split; [exact Ex|]. split; [exact Ey|].
  split; [exact (Rx Hx) | exact (Ry Hy)].
Defined.

(** C9. The message [{type: "preview-action", action: "insert",
    url: "https://figma.com/x", title: "Login Screen"}] handled while the
    viewport centre is (100, 100), when the host raises nothing: the page
    gains one child, a frame named "Login Screen" at (-100, -50) of size
    400 by 300, whose one child is a text node that reads "Login Screen";
    the one effect is the notification of success, which holds
    "Login Screen". *)
Theorem insert_login_screen (h : Host) :
  calm 20 h ->
  center h = {| Vector.x := 100; Vector.y := 100 |} ->
  let h' := fst (onmessage (PreviewActionMessage "insert" "https://figma.com/x"
                                                 "Login Screen") h) in
  exists (k : NodeId) (frame text : Props),
    children h' = children h ++ [Node k frame [Node (S k) text []]] /\
    ~ In k (forest_ids (children h)) /\
    type frame = FRAME /\
    name frame = "Login Screen" /\
    (x frame, y frame) = (-100, -50)%float /\
    (width frame, height frame) = (400, 300)%float /\
    type text = TEXT /\
    characters text = "Login Screen" /\
    effects h' = effects h ++ [Notify "✓ Inserted design: Login Screen"] /\
    notifications h' = notifications h ++ ["✓ Inserted design: Login Screen"].
Proof.
  intros Hcalm Hcenter h'.
  destruct (handleInsertDesign_body_calm "https://figma.com/x" "Login Screen" h Hcalm)
    as (h1 & Hrun & Hch & _ & _ & _ & Heff & _).
  unfold h'. rewrite (insert_run _ _ h h1 Hrun).
  exists (fresh (children h)), (placeholder "Login Screen" (center h)),
         (label "Login Screen").
  split; [exact Hch|]. split; [apply fresh_not_in|].
  rewrite Hcenter. unfold notifications. rewrite Heff, flat_map_app.
  repeat split.
Qed.

Lemma insert_login_screen_witness :
  let h := demo_host [1] 100 100 [] in
  let h' := fst (onmessage (PreviewActionMessage "insert" "https://figma.com/x"
                                                 "Login Screen") h) in
  calm 20 h /\
  center h = {| Vector.x := 100; Vector.y := 100 |} /\
  exists (k : NodeId) (frame text : Props),
    children h' = children h ++ [Node k frame [Node (S k) text []]] /\
    ~ In k (forest_ids (children h)) /\
    type frame = FRAME /\
    name frame = "Login Screen" /\
    (x frame, y frame) = (-100, -50)%float /\
    (width frame, height frame) = (400, 300)%float /\
    type text = TEXT /\
    characters text = "Login Screen" /\
    effects h' = effects h ++ [Notify "✓ Inserted design: Login Screen"] /\
    notifications h' = notifications h ++ ["✓ Inserted design: Login Screen"].
Proof.
  assert (Hcalm : calm 20 (demo_host [1] 100 100 [])) by (apply quiet_calm; reflexivity).
  assert (Hc : center (demo_host [1] 100 100 []) = {| Vector.x := 100; Vector.y := 100 |})
    by reflexivity.
  split; [exact Hcalm|]. split; [exact Hc|].
  exact (insert_login_screen (demo_host [1] 100 100 []) Hcalm Hc).
Defined.

(** ** Failures *)

Lemma onmessage_returns msg h : snd (onmessage msg h) = Normal tt.
Proof.
  destruct msg as [text | action url title]; [reflexivity|].
  unfold onmessage.
  destruct (String.eqb action "copy"); [reflexivity|].
  destruct (String.eqb action "insert"); [reflexivity|].
  destruct (String.eqb action "goto"); reflexivity.
Qed.

Lemma handleGoToFile_calm url title h :
  calm 2 h ->
  effects (fst (onmessage (PreviewActionMessage "goto" url title) h)) =
  effects h ++ [OpenExternal url; Notify ("Opening: " ++ title)].
Proof.
  intros (C1 & C2 & _).
  change (onmessage (PreviewActionMessage "goto" url title) h)
    with (call_async (handleGoToFile url title) h).
  unfold call_async, handleGoToFile, try_catch, handleGoToFile_body, bind.
  unfold figma.openExternal. rewrite host_call_ok by exact C1.
  unfold figma.notify. rewrite host_call_ok by exact C2.
  project. rewrite <- app_assoc. reflexivity.
Qed.

(** C4. When the body of a handler raises [e], the message still returns
    normally to the dispatcher; the handler turns [e] into its message,
    or into "Unknown error" when [e] is no Error object, and, the host
    taking the notification, adds the one notification
    "Error <doing>: <message>" to the effects the body had produced,
    leaving the document as the body left it; the dispatcher then handles
    any next message, and a next goto message has its usual effects. *)
Theorem failure_is_caught_and_notified
  (k : Handler) (h h1 : Host) (url title : string) (e : Thrown) :
  body_of k url title h = (h1, Throw e) ->
  hd None (failures h1) = None ->
  let h' := fst (onmessage (PreviewActionMessage (action_of k) url title) h) in
  snd (onmessage (PreviewActionMessage (action_of k) url title) h) = Normal tt /\
  effects h' =
    effects h1 ++ [Notify ("Error " ++ doing k ++ ": " ++ errorMessage e)] /\
  document h' = document h1 /\
  (forall m, e = ErrorObject m -> errorMessage e = m) /\
  (forall v, e = OtherValue v -> errorMessage e = "Unknown error") /\
  (forall next, snd (onmessage next h') = Normal tt) /\
  (forall url' title',
     calm 2 h' ->
     effects (fst (onmessage (PreviewActionMessage "goto" url' title') h')) =
     effects h' ++ [OpenExternal url'; Notify ("Opening: " ++ title')]).
Proof.
  intros Hbody Hnotify h'.
  assert (Hh' : h' = with_effects
                       (effects h1 ++ [Notify ("Error " ++ doing k ++ ": " ++ errorMessage e)])
                       (rest_of h1)).
  { unfold h'. destruct k; cbn [action_of body_of doing] in *.
    - change (onmessage (PreviewActionMessage "copy" url title) h)
        with (call_async (handleCopyLayer url title) h).
      unfold call_async, handleCopyLayer, try_catch. rewrite Hbody.
      unfold figma.notify. rewrite host_call_ok by exact Hnotify. reflexivity.
    - change (onmessage (PreviewActionMessage "insert" url title) h)
        with (call_async (handleInsertDesign url title) h).
      unfold call_async, handleInsertDesign, try_catch. rewrite Hbody.
      unfold figma.notify. rewrite host_call_ok by exact Hnotify. reflexivity.
    - change (onmessage (PreviewActionMessage "goto" url title) h)
        with (call_async (handleGoToFile url title) h).
      unfold call_async, handleGoToFile, try_catch. rewrite Hbody.
      unfold figma.notify. rewrite host_call_ok by exact Hnotify. reflexivity. }
  split; [apply onmessage_returns|].
  split; [rewrite Hh'; reflexivity|].
  split; [rewrite Hh'; reflexivity|].
  split; [intros m ->; reflexivity|].
  split; [intros v ->; reflexivity|].
  split; [intros next; apply onmessage_returns|].
  intros url' title' Hcalm. apply handleGoToFile_calm. exact Hcalm.
Qed.

Lemma failure_is_caught_and_notified_witness :
  let h := demo_host [1] 100 100
             (repeat None 9 ++ [Some (ErrorObject "Font unavailable")]) in
  let h1 := fst (handleInsertDesign_body "https://figma.com/x" "Card" h) in
  let h' := fst (onmessage (PreviewActionMessage "insert" "https://figma.com/x" "Card") h) in
  body_of Insert "https://figma.com/x" "Card" h
    = (h1, Throw (ErrorObject "Font unavailable")) /\
  hd None (failures h1) = None /\
  calm 2 h' /\
  effects h' = effects h1 ++ [Notify "Error inserting design: Font unavailable"] /\
  document h' = document h1 /\
  effects (fst (onmessage (PreviewActionMessage "goto" "https://figma.com/y" "Next") h'))
    = effects h' ++ [OpenExternal "https://figma.com/y"; Notify "Opening: Next"].
Proof.
  intros h h1 h'.
  assert (Hbody : body_of Insert "https://figma.com/x" "Card" h
                  = (h1, Throw (ErrorObject "Font unavailable")))
    by (vm_compute; reflexivity).
  assert (Hnotify : hd None (failures h1) = None) by (vm_compute; reflexivity).
  assert (Hcalm : calm 2 h') by (vm_compute; tauto).
  destruct (failure_is_caught_and_notified Insert h h1 "https://figma.com/x" "Card"
              (ErrorObject "Font unavailable") Hbody Hnotify)
    as (_ & Heff & Hdoc & _ & _ & _ & Hnext).
  split; [exact Hbody|]. split; [exact Hnotify|]. split; [exact Hcalm|].
  split; [exact Heff|]. split; [exact Hdoc|].
  exact (Hnext "https://figma.com/y" "Next" Hcalm).
Defined.

(** ** Where the duplicates go *)

Lemma parent_under_not_in i n : forall here,
  ~ In i (ids n) -> parent_under here i n = None.
Proof.
  induction n as [j p cs IH] using node_forest_ind. intros here Hn.
  rewrite parent_under_node. simpl in Hn.
  destruct (Nat.eqb_spec j i) as [->|_]; [exfalso; apply Hn; now left|].
  assert (Hcs : ~ In i (flat_map ids cs)) by tauto. clear Hn.
  induction cs as [|c cs IHcs]; [reflexivity|].
  inversion IH as [|? ? Hc Hrest]; subst.
  simpl in Hcs. rewrite in_app_iff in Hcs.
  rewrite Hc by tauto. apply IHcs; [assumption | tauto].
Qed.

Lemma parent_in_not_in i l : ~ In i (forest_ids l) -> parent_in i l = None.
Proof.
  unfold forest_ids. induction l as [|c l IH]; simpl; [reflexivity|].
  intros Hn. rewrite in_app_iff in Hn.
  rewrite parent_under_not_in by tauto. apply IH. tauto.
Qed.

Lemma parent_in_app i l1 l2 :
  parent_in i (l1 ++ l2) =
  match parent_in i l1 with Some p => Some p | None => parent_in i l2 end.
Proof.
  induction l1 as [|c l1 IH]; simpl; [reflexivity|].
  destruct (parent_under None i c); [reflexivity | exact IH].
Qed.


Lemma node_id_in_ids c : In (node_id c) (ids c).
Proof. destruct c as [j p cs]. now left. Qed.

Lemma NoDup_app_disjoint (l1 l2 : list NodeId) j :
  NoDup (l1 ++ l2) -> In j l1 -> In j l2 -> False.
Proof.
  induction l1 as [|a l1 IH]; simpl; intros Hnd H1 H2; [exact H1|].
  apply NoDup_cons_iff in Hnd. destruct Hnd as [Ha Hnd].
  destruct H1 as [-> | H1]; [apply Ha, in_app_iff; now right | exact (IH Hnd H1 H2)].
Qed.





(** ** A failure inside the duplication loop *)






(** * Further properties *)

(** ** What is on the page stays on the page *)

Lemma keeps_ret {A : Type} C (v : A) (Q : A -> Prop) : Q v -> keeps C (ret v) Q.
Proof.
  intros HQ h extra Hc. split; [exists extra; exact Hc|].
  intros w Hw. injection Hw as <-. exact HQ.
Qed.

Lemma keeps_bind {A B : Type} C (m : Js A) (k : A -> Js B) P Q :
  keeps C m P -> (forall v, P v -> keeps C (k v) Q) -> keeps C (bind m k) Q.
Proof.
  intros Hm Hk h extra Hc. unfold bind.
  destruct (Hm h extra Hc) as [(extra1 & H1) HP].
  destruct (m h) as [h1 [v|e]]; simpl in *.
  - apply (Hk v (HP v eq_refl) h1 extra1 H1).
  - split; [exists extra1; exact H1 | intros w Hw; discriminate Hw].
Qed.

Lemma keeps_host_call {A : Type} C (op : Js A) Q :
  keeps C op Q -> keeps C (host_call op) Q.
Proof.
  intros Hop h extra Hc. unfold host_call.
  destruct (failures h) as [|[e|] fs].
  - apply (Hop (with_failures (tl []) h) extra Hc).
  - split; [exists extra; exact Hc | intros w Hw; discriminate Hw].
  - apply (Hop (with_failures fs h) extra Hc).
Qed.

Lemma keeps_try_catch {A : Type} C (body : Js A) handler Q :
  keeps C body Q -> (forall e, keeps C (handler e) Q) ->
  keeps C (try_catch body handler) Q.
Proof.
  intros Hb Hh h extra Hc. unfold try_catch.
  destruct (Hb h extra Hc) as [(extra1 & H1) HQ].
  destruct (body h) as [h1 [v|e]]; simpl in *.
  - split; [exists extra1; exact H1 | exact HQ].
  - apply (Hh e h1 extra1 H1).
Qed.

Lemma keeps_weaken {A : Type} C (m : Js A) (P Q : A -> Prop) :
  (forall v, P v -> Q v) -> keeps C m P -> keeps C m Q.
Proof.
  intros HPQ Hm h extra Hc. destruct (Hm h extra Hc) as [H1 HP].
  split; [exact H1 | intros v Hv; apply HPQ, HP, Hv].
Qed.

(** A call that leaves the children of the page alone. *)
Lemma keeps_still {A : Type} C (op : Js A) :
  (forall h, children (fst (op h)) = children h) ->
  keeps C (host_call op) (fun _ => True).
Proof.
  intros Hstill. apply keeps_host_call. intros h extra Hc.
  split; [exists extra; rewrite Hstill; exact Hc | intros; exact I].
Qed.

Lemma outside_fresh C extra : outside C (fresh (C ++ extra)).
Proof.
  intros Hin. apply (fresh_not_in (C ++ extra)).
  rewrite forest_ids_app, in_app_iff. left. exact Hin.
Qed.

Lemma keeps_clone C node : keeps C (figma.clone node) (outside C).
Proof.
  apply keeps_host_call. intros h extra Hc.
  destruct (find_in node (children h)) as [n|]; simpl.
  - split.
    + exists (extra ++ [relabel (fresh (children h)) n]).
      rewrite Hc, app_assoc. reflexivity.
    + intros v Hv. injection Hv as <-. rewrite Hc. apply outside_fresh.
  - split; [exists extra; exact Hc | intros v Hv; discriminate Hv].
Qed.

Lemma keeps_create C p : keeps C (figma.create p) (outside C).
Proof.
  apply keeps_host_call. intros h extra Hc. simpl. split.
  - exists (extra ++ [Node (fresh (children h)) p []]).
    rewrite Hc, app_assoc. reflexivity.
  - intros v Hv. injection Hv as <-. rewrite Hc. apply outside_fresh.
Qed.

Lemma keeps_get {A : Type} C (prop : Props -> A) node :
  keeps C (figma.get prop node) (fun _ => True).
Proof.
  apply keeps_host_call. intros h extra Hc.
  destruct (find_in node (children h)); simpl;
    (split; [exists extra; exact Hc | intros; exact I]).
Qed.

Lemma update_in_outside C extra node f :
  outside C node -> update_in node f (C ++ extra) = C ++ update_in node f extra.
Proof.
  intros Hout. unfold update_in. rewrite map_app. f_equal.
  apply update_in_not_in. exact Hout.
Qed.

Lemma keeps_set C assign node :
  outside C node -> keeps C (figma.set assign node) (fun _ => True).
Proof.
  intros Hout. apply keeps_host_call. intros h extra Hc.
  destruct (find_in node (children h)); simpl.
  - split; [|intros; exact I]. exists (update_in node assign extra).
    rewrite Hc. apply update_in_outside. exact Hout.
  - split; [exists extra; exact Hc | intros; exact I].
Qed.

Lemma keeps_set_text C assign node :
  outside C node -> keeps C (figma.set_text assign node) (fun _ => True).
Proof.
  intros Hout. apply keeps_host_call. intros h extra Hc.
  destruct (find_in node (children h)); simpl.
  - destruct (existsb (font_eqb figma.Inter_Regular) (fonts h)); simpl.
    + split; [|intros; exact I]. exists (update_in node assign extra).
      rewrite Hc. apply update_in_outside. exact Hout.
    + split; [exists extra; exact Hc | intros; exact I].
  - split; [exists extra; exact Hc | intros; exact I].
Qed.

Lemma keeps_resize C node w h0 :
  outside C node -> keeps C (figma.resize node w h0) (fun _ => True).
Proof.
  intros Hout. unfold figma.resize.
  destruct (PrimFloat.ltb w 0.01 || PrimFloat.ltb h0 0.01)%bool.
  - apply keeps_still. reflexivity.
  - apply keeps_set. exact Hout.
Qed.

Lemma keeps_currentPage_appendChild C node :
  outside C node -> keeps C (figma.currentPage_appendChild node) (fun _ => True).
Proof.
  intros Hout. apply keeps_host_call. intros h extra Hc.
  destruct (find_in node (children h)) as [n|]; simpl.
  - split; [|intros; exact I]. exists (detach node extra ++ [n]).
    rewrite Hc, detach_app, detach_not_in by exact Hout.
    rewrite app_assoc. reflexivity.
  - split; [exists extra; exact Hc | intros; exact I].
Qed.

Lemma graft_outside C parent c :
  outside C parent -> map (graft parent c) C = C.
Proof.
  unfold outside, forest_ids. induction C as [|d C IH]; simpl; [reflexivity|].
  intros Hout. rewrite in_app_iff in Hout.
  rewrite graft_not_in, IH by tauto. reflexivity.
Qed.

Lemma keeps_appendChild C parent node :
  outside C parent -> outside C node ->
  keeps C (figma.appendChild parent node) (fun _ => True).
Proof.
  intros Hp Hn. apply keeps_host_call. intros h extra Hc.
  destruct (find_in node (children h)) as [n|]; simpl.
  - destruct (find_in parent (detach node (children h))); simpl.
    + split; [|intros; exact I].
      exists (map (graft parent n) (detach node extra)).
      rewrite Hc, detach_app, detach_not_in by exact Hn.
      rewrite map_app, graft_outside by exact Hp. reflexivity.
    + split; [exists extra; exact Hc | intros; exact I].
  - split; [exists extra; exact Hc | intros; exact I].
Qed.

Lemma keeps_duplicate_node C node :
  keeps C (duplicate_node node) (fun _ => True).
Proof.
  unfold duplicate_node.
  eapply keeps_bind; [apply keeps_clone|]. intros k Hk.
  eapply keeps_bind; [apply keeps_get|]. intros vx _.
  eapply keeps_bind; [apply keeps_set; exact Hk|]. intros _ _.
  eapply keeps_bind; [apply keeps_get|]. intros vy _.
  eapply keeps_bind; [apply keeps_set; exact Hk|]. intros _ _.
  eapply keeps_bind; [apply keeps_currentPage_appendChild; exact Hk|]. intros _ _.
  apply keeps_ret. exact I.
Qed.

Lemma keeps_duplicate_all C nodes : forall duplicates,
  keeps C (duplicate_all nodes duplicates) (fun _ => True).
Proof.
  induction nodes as [|node rest IH]; intros duplicates; simpl.
  - apply keeps_ret. exact I.
  - eapply keeps_bind; [apply keeps_duplicate_node|]. intros k _. apply IH.
Qed.

Lemma keeps_notify C message : keeps C (figma.notify message) (fun _ => True).
Proof. apply keeps_still. reflexivity. Qed.

Lemma keeps_handleCopyLayer C url title :
  keeps C (handleCopyLayer url title) (fun _ => True).
Proof.
  apply keeps_try_catch; [|intros e; apply keeps_notify].
  unfold handleCopyLayer_body.
  eapply keeps_bind; [apply keeps_still; reflexivity|]. intros sel _.
  destruct (Nat.eqb (List.length sel) 0); [apply keeps_notify|].
  eapply keeps_bind; [apply keeps_notify|]. intros _ _.
  eapply keeps_bind; [apply keeps_duplicate_all|]. intros duplicates _.
  eapply keeps_bind; [apply keeps_still; reflexivity|]. intros _ _.
  apply keeps_still. reflexivity.
Qed.

Lemma keeps_handleInsertDesign C url title :
  keeps C (handleInsertDesign url title) (fun _ => True).
Proof.
  apply keeps_try_catch; [|intros e; apply keeps_notify].
  unfold handleInsertDesign_body.
  eapply keeps_bind; [apply keeps_create|]. intros frame Hframe.
  eapply keeps_bind; [apply keeps_set; exact Hframe|]. intros _ _.
  eapply keeps_bind; [apply keeps_resize; exact Hframe|]. intros _ _.
  eapply keeps_bind; [apply keeps_still; reflexivity|]. intros c1 _.
  eapply keeps_bind; [apply keeps_still; reflexivity|]. intros c2 _.
  eapply keeps_bind; [apply keeps_set; exact Hframe|]. intros _ _.
  eapply keeps_bind; [apply keeps_set; exact Hframe|]. intros _ _.
  eapply keeps_bind; [apply keeps_set; exact Hframe|]. intros _ _.
  eapply keeps_bind; [apply keeps_create|]. intros text Htext.
  eapply keeps_bind; [apply keeps_still; reflexivity|]. intros _ _.
  eapply keeps_bind; [apply keeps_set_text; exact Htext|]. intros _ _.
  eapply keeps_bind; [apply keeps_set_text; exact Htext|]. intros _ _.
  eapply keeps_bind; [apply keeps_set; exact Htext|]. intros _ _.
  eapply keeps_bind; [apply keeps_set; exact Htext|]. intros _ _.
  eapply keeps_bind; [apply keeps_set; exact Htext|]. intros _ _.
  eapply keeps_bind; [apply keeps_appendChild; assumption|]. intros _ _.
  eapply keeps_bind; [apply keeps_currentPage_appendChild; exact Hframe|]. intros _ _.
  eapply keeps_bind; [apply keeps_still; reflexivity|]. intros _ _.
  eapply keeps_bind; [apply keeps_still; reflexivity|]. intros _ _.
  apply keeps_notify.
Qed.

Lemma keeps_handleGoToFile C url title :
  keeps C (handleGoToFile url title) (fun _ => True).
Proof.
  apply keeps_try_catch; [|intros e; apply keeps_notify].
  unfold handleGoToFile_body.
  eapply keeps_bind; [apply keeps_still; reflexivity|]. intros _ _.
  apply keeps_notify.
Qed.

Lemma keeps_call_async C m :
  keeps C m (fun _ => True) -> keeps C (call_async m) (fun _ => True).
Proof.
  intros Hm h extra Hc. destruct (Hm h extra Hc) as [H1 _].
  split; [exact H1 | intros; exact I].
Qed.

Lemma keeps_onmessage C msg : keeps C (onmessage msg) (fun _ => True).
Proof.
  destruct msg as [text | action url title]; simpl.
  - intros h0 extra Hc. split; [exists extra; exact Hc | intros; exact I].
  - destruct (String.eqb action "copy");
      [apply keeps_call_async, keeps_handleCopyLayer|].
    destruct (String.eqb action "insert");
      [apply keeps_call_async, keeps_handleInsertDesign|].
    destruct (String.eqb action "goto");
      [apply keeps_call_async, keeps_handleGoToFile|].
    apply keeps_ret. exact I.
Qed.

(** X1. Whatever the message and whatever the host raises, the children
    the page had when the message arrived are still its first children, in
    the same order and unchanged down to their descendants: no handler
    removes, moves or edits a node it did not create. *)
Theorem page_is_only_extended (msg : PluginMessage) (h : Host) :
  exists extra : Forest,
    children (fst (onmessage msg h)) = children h ++ extra.
Proof.
  destruct (keeps_onmessage (children h) msg h []
              (eq_sym (app_nil_r (children h)))) as [Hext _].
  exact Hext.
Qed.

(** ** The effects of a message, whatever the host raises *)

Lemma silent_ret {A : Type} (v : A) : silent (ret v).
Proof. intros h. reflexivity. Qed.

Lemma silent_bind {A B : Type} (m : Js A) (k : A -> Js B) :
  silent m -> (forall v, silent (k v)) -> silent (bind m k).
Proof.
  intros Hm Hk h. unfold bind. specialize (Hm h).
  destruct (m h) as [h1 [v|e]]; simpl in *; [rewrite Hk|]; exact Hm.
Qed.

Lemma silent_call {A : Type} (op : Js A) :
  (forall h, effects (fst (op h)) = effects h) -> silent (host_call op).
Proof.
  intros Hop h. unfold host_call.
  destruct (failures h) as [|[e|] fs]; [rewrite Hop | | rewrite Hop]; reflexivity.
Qed.

(** A field that an operation of the host leaves alone. *)
Ltac untouched :=
  intros;
  cbn [fst snd figma.clone figma.get figma.set];
  repeat match goal with
         | |- context [match ?c with _ => _ end] => destruct c
         end;
  reflexivity.

Lemma silent_clone node : silent (figma.clone node).
Proof. apply silent_call. untouched. Qed.

Lemma silent_get {A : Type} (prop : Props -> A) node : silent (figma.get prop node).
Proof. apply silent_call. untouched. Qed.

Lemma silent_set assign node : silent (figma.set assign node).
Proof. apply silent_call. untouched. Qed.

Lemma silent_set_text assign node : silent (figma.set_text assign node).
Proof. apply silent_call. untouched. Qed.

Lemma silent_resize node w h0 : silent (figma.resize node w h0).
Proof.
  unfold figma.resize. destruct (PrimFloat.ltb w 0.01 || PrimFloat.ltb h0 0.01)%bool.
  - apply silent_call. untouched.
  - apply silent_set.
Qed.

Lemma silent_create p : silent (figma.create p).
Proof. apply silent_call. untouched. Qed.

Lemma silent_currentPage_appendChild node :
  silent (figma.currentPage_appendChild node).
Proof. apply silent_call. untouched. Qed.

Lemma silent_appendChild parent node : silent (figma.appendChild parent node).
Proof. apply silent_call. untouched. Qed.

Lemma silent_get_selection : silent figma.get_selection.
Proof. apply silent_call. untouched. Qed.

Lemma silent_set_selection nodes : silent (figma.set_selection nodes).
Proof. apply silent_call. untouched. Qed.

Lemma silent_get_center : silent figma.get_center.
Proof. apply silent_call. untouched. Qed.

Lemma silent_scrollAndZoomIntoView nodes : silent (figma.scrollAndZoomIntoView nodes).
Proof. apply silent_call. untouched. Qed.

Lemma silent_loadFontAsync font : silent (figma.loadFontAsync font).
Proof. apply silent_call. untouched. Qed.

Lemma silent_duplicate_node node : silent (duplicate_node node).
Proof.
  unfold duplicate_node.
  repeat (apply silent_bind; [first [apply silent_clone | apply silent_get
                                    | apply silent_set
                                    | apply silent_currentPage_appendChild] | intros]).
  apply silent_ret.
Qed.

Lemma silent_duplicate_all nodes : forall duplicates,
  silent (duplicate_all nodes duplicates).
Proof.
  induction nodes as [|node rest IH]; intros duplicates; simpl.
  - apply silent_ret.
  - apply silent_bind; [apply silent_duplicate_node | intros; apply IH].
Qed.

(** The two ways a notification can go. *)
Lemma notify_cases message h :
  (exists e, snd (figma.notify message h) = Throw e /\
             effects (fst (figma.notify message h)) = effects h) \/
  (snd (figma.notify message h) = Normal tt /\
   effects (fst (figma.notify message h)) = effects h ++ [Notify message]).
Proof.
  unfold figma.notify, host_call.
  destruct (failures h) as [|[e|] fs]; simpl;
    [right; tauto | left; exists e; tauto | right; tauto].
Qed.

Lemma openExternal_cases url h :
  (exists e, snd (figma.openExternal url h) = Throw e /\
             effects (fst (figma.openExternal url h)) = effects h) \/
  (snd (figma.openExternal url h) = Normal tt /\
   effects (fst (figma.openExternal url h)) = effects h ++ [OpenExternal url]).
Proof.
  unfold figma.openExternal, host_call.
  destruct (failures h) as [|[e|] fs]; simpl;
    [right; tauto | left; exists e; tauto | right; tauto].
Qed.

(** What a [catch] that notifies adds to the effects [E ++ l] the body
    left: nothing, or the error notification. *)
Lemma caught_cases (failed : Thrown -> Effect) message e h1 E l :
  failed e = Notify message ->
  effects h1 = E ++ l ->
  effects (fst (figma.notify message h1)) = E ++ l \/
  effects (fst (figma.notify message h1)) = E ++ l ++ [failed e].
Proof.
  intros Hmsg Hh1.
  destruct (notify_cases message h1) as [(e' & _ & He) | (_ & He)]; rewrite He, Hh1.
  - left. reflexivity.
  - right. rewrite Hmsg, app_assoc. reflexivity.
Qed.

Lemma copy_rest_silent duplicates0 sel :
  silent (duplicates <- duplicate_all sel duplicates0 ;;
          figma.set_selection duplicates ;;
          figma.scrollAndZoomIntoView duplicates).
Proof.
  apply silent_bind; [apply silent_duplicate_all | intros duplicates].
  apply silent_bind; [apply silent_set_selection | intros _].
  apply silent_scrollAndZoomIntoView.
Qed.

(** What the body of the copy handler adds to the effects, and how it
    completes. *)
Lemma handleCopyLayer_body_unfold url title h :
  handleCopyLayer_body url title h =
  match failures h with
  | Some e :: rest => (with_failures rest h, Throw e)
  | _ =>
      if Nat.eqb (List.length (selection h)) 0
      then figma.notify "Please select a layer to copy first" (rest_of h)
      else
        match figma.notify (ready_to_copy title) (rest_of h) with
        | (h2, Normal _) =>
            (duplicates <- duplicate_all (selection h) [] ;;
             figma.set_selection duplicates ;;
             figma.scrollAndZoomIntoView duplicates) h2
        | (h2, Throw e) => (h2, Throw e)
        end
  end.
Proof.
  unfold handleCopyLayer_body, bind at 1, figma.get_selection, host_call, rest_of.
  destruct (failures h) as [|[e|] fs]; cbn [selection with_failures];
    try reflexivity; destruct (Nat.eqb (List.length (selection h)) 0); reflexivity.
Qed.

(** What the body of the copy handler adds to the effects, and how it
    completes. *)
Lemma handleCopyLayer_body_effects url title h :
  exists l,
    effects (fst (handleCopyLayer_body url title h)) = effects h ++ l /\
    ((l = [] /\ exists e, snd (handleCopyLayer_body url title h) = Throw e) \/
     (l = [please_select] /\ selection h = [] /\
      snd (handleCopyLayer_body url title h) = Normal tt) \/
     (l = [ready title] /\ selection h <> [])).
Proof.
  rewrite handleCopyLayer_body_unfold.
  assert (Hrest : effects (rest_of h) = effects h) by reflexivity.
  assert (Hcases :
    exists l,
      effects (fst (if Nat.eqb (List.length (selection h)) 0
                    then figma.notify "Please select a layer to copy first" (rest_of h)
                    else
                      match figma.notify (ready_to_copy title) (rest_of h) with
                      | (h2, Normal _) =>
                          (duplicates <- duplicate_all (selection h) [] ;;
                           figma.set_selection duplicates ;;
                           figma.scrollAndZoomIntoView duplicates) h2
                      | (h2, Throw e) => (h2, Throw e)
                      end)) = effects h ++ l /\
      ((l = [] /\ exists e,
          snd (if Nat.eqb (List.length (selection h)) 0
               then figma.notify "Please select a layer to copy first" (rest_of h)
               else
                 match figma.notify (ready_to_copy title) (rest_of h) with
                 | (h2, Normal _) =>
                     (duplicates <- duplicate_all (selection h) [] ;;
                      figma.set_selection duplicates ;;
                      figma.scrollAndZoomIntoView duplicates) h2
                 | (h2, Throw e) => (h2, Throw e)
                 end) = Throw e) \/
       (l = [please_select] /\ selection h = [] /\
        snd (if Nat.eqb (List.length (selection h)) 0
             then figma.notify "Please select a layer to copy first" (rest_of h)
             else
               match figma.notify (ready_to_copy title) (rest_of h) with
               | (h2, Normal _) =>
                   (duplicates <- duplicate_all (selection h) [] ;;
                    figma.set_selection duplicates ;;
                    figma.scrollAndZoomIntoView duplicates) h2
               | (h2, Throw e) => (h2, Throw e)
               end) = Normal tt) \/
       (l = [ready title] /\ selection h <> []))).
  { destruct (selection h) as [|node rest] eqn:Hsel; cbn [List.length Nat.eqb].
    - destruct (notify_cases "Please select a layer to copy first" (rest_of h))
        as [(e & Hr & He) | (Hr & He)]; rewrite He, Hrest.
      + exists []. rewrite app_nil_r. split; [reflexivity|]. left. eauto.
      + exists [please_select]. split; [reflexivity|]. right. left. tauto.
    - destruct (notify_cases (ready_to_copy title) (rest_of h))
        as [(e & Hr & He) | (Hr & He)];
        destruct (figma.notify (ready_to_copy title) (rest_of h)) as [h2 r2];
        cbn [fst snd] in Hr, He; subst r2.
      + exists []. cbn [fst snd]. rewrite He, Hrest, app_nil_r.
        split; [reflexivity|]. left. eauto.
      + exists [ready title]. rewrite copy_rest_silent, He, Hrest.
        split; [reflexivity|]. right. right. split; [reflexivity | discriminate]. }
  destruct (failures h) as [|[e|] fs]; [exact Hcases | | exact Hcases].
  exists []. rewrite app_nil_r. split; [reflexivity|]. left.
  split; [reflexivity | exists e; reflexivity].
Qed.

Lemma onmessage_copy url title h :
  onmessage (PreviewActionMessage "copy" url title) h =
  call_async (handleCopyLayer url title) h.
Proof. reflexivity. Qed.

Lemma onmessage_goto url title h :
  onmessage (PreviewActionMessage "goto" url title) h =
  call_async (handleGoToFile url title) h.
Proof. reflexivity. Qed.

(** X2. Whatever the host raises, a copy message only appends to the
    effects, and what it appends is one of: nothing; the error
    notification; the request to select, only when nothing is selected; the
    notification of readiness, alone or followed by the error notification,
    only when something is selected. It never opens a URL, and never
    notifies more than twice. *)
Theorem copy_effects (h : Host) (url title : string) :
  let h' := fst (onmessage (PreviewActionMessage "copy" url title) h) in
  exists l : list Effect,
    effects h' = effects h ++ l /\
    (l = [] \/
     (exists e, l = [copy_failed e]) \/
     (l = [please_select] /\ selection h = []) \/
     (l = [ready title] /\ selection h <> []) \/
     (exists e, l = [ready title; copy_failed e] /\ selection h <> [])).
Proof.
  intros h'. unfold h'. rewrite onmessage_copy.
  unfold call_async, handleCopyLayer, try_catch. cbn [fst].
  destruct (handleCopyLayer_body_effects url title h) as (l & He & Hl).
  destruct (handleCopyLayer_body url title h) as [h1 [[]|e]]; cbn [fst snd] in *.
  - exists l. split; [exact He|].
    destruct Hl as [(-> & e & He') | [(-> & Hsel & _) | (-> & Hsel)]];
      [discriminate He' | tauto | tauto].
  - destruct (caught_cases copy_failed _ e h1 (effects h) l eq_refl He) as [H1 | H1].
    + exists l. split; [exact H1|].
      destruct Hl as [(-> & _) | [(_ & _ & Hr) | (-> & Hsel)]];
        [tauto | discriminate Hr | tauto].
    + exists (l ++ [copy_failed e]). split; [exact H1|].
      destruct Hl as [(-> & _) | [(_ & _ & Hr) | (-> & Hsel)]];
        [right; left; exists e; reflexivity | discriminate Hr | ].
      right. right. right. right. exists e. split; [reflexivity | exact Hsel].
Qed.

Lemma ends_with_notify message : ends_with (Notify message) (figma.notify message).
Proof.
  intros h. destruct (notify_cases message h) as [(e & Hr & He) | (Hr & He)].
  - left. split; [exact He | exists e; exact Hr].
  - right. split; assumption.
Qed.

Lemma ends_with_bind {A : Type} s (m : Js A) (k : A -> Js unit) :
  silent m -> (forall v, ends_with s (k v)) -> ends_with s (bind m k).
Proof.
  intros Hm Hk h. unfold bind. specialize (Hm h).
  destruct (m h) as [h1 [v|e]]; cbn [fst snd] in *.
  - rewrite <- Hm. apply Hk.
  - left. split; [exact Hm | exists e; reflexivity].
Qed.

Lemma handleInsertDesign_body_ends url title :
  ends_with (inserted title) (handleInsertDesign_body url title).
Proof.
  unfold handleInsertDesign_body.
  repeat (apply ends_with_bind;
          [ first [ apply silent_create | apply silent_set | apply silent_resize
                  | apply silent_get_center | apply silent_loadFontAsync
                  | apply silent_set_text | apply silent_appendChild
                  | apply silent_currentPage_appendChild
                  | apply silent_set_selection
                  | apply silent_scrollAndZoomIntoView ]
          | intros ]).
  apply ends_with_notify.
Qed.

(** X3. Whatever the host raises, an insert message only appends to the
    effects, and what it appends is nothing, the notification of success,
    or the error notification: never both, and never a URL opened. *)
Theorem insert_effects (h : Host) (url title : string) :
  let h' := fst (onmessage (PreviewActionMessage "insert" url title) h) in
  effects h' = effects h \/
  effects h' = effects h ++ [inserted title] \/
  exists e, effects h' = effects h ++ [insert_failed e].
Proof.
  intros h'. unfold h'. rewrite onmessage_insert.
  unfold call_async, handleInsertDesign, try_catch. cbn [fst].
  destruct (handleInsertDesign_body_ends url title h) as [(He & e & Hr) | (Hr & He)];
    destruct (handleInsertDesign_body url title h) as [h1 r];
    cbn [fst snd] in *; subst r.
  - destruct (caught_cases insert_failed _ e h1 (effects h) [] eq_refl)
      as [H1 | H1]; [rewrite app_nil_r; exact He | | ].
    + left. rewrite H1. apply app_nil_r.
    + right. right. exists e. exact H1.
  - right. left. exact He.
Qed.

(** ** A normal completion has made all its calls *)

Lemma runs_ret {A : Type} (v : A) : runs 0 (ret v).
Proof.
  intros h h1 w H. injection H as <- _. split; [exact I | reflexivity].
Qed.

Lemma runs_bind {A B : Type} n k N (m : Js A) (f : A -> Js B) :
  runs n m -> (forall a, runs k (f a)) -> n + k = N -> runs N (bind m f).
Proof.
  intros Hm Hf <- h h2 v H. unfold bind in H.
  destruct (m h) as [h1 [a|e]] eqn:Hmh; [|discriminate H].
  destruct (Hm h h1 a Hmh) as [Hc1 Hf1].
  destruct (Hf a h1 h2 v H) as [Hc2 Hf2].
  split.
  - apply calm_add. split; [exact Hc1|].
    apply (calm_ext k h1); [exact Hf1 | exact Hc2].
  - rewrite Hf2, skip_add, !failures_skip, Hf1, failures_skip. reflexivity.
Qed.

Lemma runs_call {A : Type} (op : Js A) :
  (forall h, failures (fst (op h)) = failures h) -> runs 1 (host_call op).
Proof.
  intros Hop h h1 v H. unfold host_call in H.
  assert (Hnext : hd None (failures h) = None /\
                  h1 = fst (op (rest_of h))).
  { unfold rest_of. destruct (failures h) as [|[e|] fs];
      [ | discriminate H | ]; rewrite H; split; reflexivity. }
  destruct Hnext as [Hhd ->]. split.
  - split; [exact Hhd | exact I].
  - rewrite Hop. reflexivity.
Qed.

Lemma runs_create p : runs 1 (figma.create p).
Proof. apply runs_call. untouched. Qed.

Lemma runs_set assign node : runs 1 (figma.set assign node).
Proof. apply runs_call. untouched. Qed.

Lemma runs_set_text assign node : runs 1 (figma.set_text assign node).
Proof. apply runs_call. untouched. Qed.

Lemma runs_get_center : runs 1 figma.get_center.
Proof. apply runs_call. untouched. Qed.

Lemma runs_loadFontAsync font : runs 1 (figma.loadFontAsync font).
Proof. apply runs_call. untouched. Qed.

Lemma runs_appendChild parent node : runs 1 (figma.appendChild parent node).
Proof. apply runs_call. untouched. Qed.

Lemma runs_currentPage_appendChild node : runs 1 (figma.currentPage_appendChild node).
Proof. apply runs_call. untouched. Qed.

Lemma runs_set_selection nodes : runs 1 (figma.set_selection nodes).
Proof. apply runs_call. untouched. Qed.

Lemma runs_scrollAndZoomIntoView nodes : runs 1 (figma.scrollAndZoomIntoView nodes).
Proof. apply runs_call. untouched. Qed.

Lemma runs_notify message : runs 1 (figma.notify message).
Proof. apply runs_call. untouched. Qed.

Lemma runs_handleInsertDesign_body url title :
  runs 20 (handleInsertDesign_body url title).
Proof.
  unfold handleInsertDesign_body, figma.createFrame, figma.createText, figma.resize.
  change (PrimFloat.ltb 400 0.01 || PrimFloat.ltb 300 0.01)%bool with false.
  cbn iota.
  repeat (eapply runs_bind;
          [ first [ apply runs_create | apply runs_set | apply runs_get_center
                  | apply runs_loadFontAsync | apply runs_set_text
                  | apply runs_appendChild | apply runs_currentPage_appendChild
                  | apply runs_set_selection | apply runs_scrollAndZoomIntoView ]
          | intros
          | ]).
  apply runs_notify.
  all: reflexivity.
Qed.

Lemma app_one_neq {A : Type} (l : list A) (a : A) : l <> l ++ [a].
Proof.
  intros H. apply (f_equal (@List.length A)) in H.
  rewrite length_app in H. simpl in H. lia.
Qed.

(** X4. The notification of success of an insert message is truthful: it
    is what the message adds to the effects exactly when none of the twenty
    calls the handler makes of the host API raises. *)
Theorem insert_success_iff_no_failure (h : Host) (url title : string) :
  let h' := fst (onmessage (PreviewActionMessage "insert" url title) h) in
  effects h' = effects h ++ [inserted title] <-> calm 20 h.
Proof.
  intros h'. unfold h'. split.
  - rewrite onmessage_insert.
    unfold call_async, handleInsertDesign, try_catch. cbn [fst].
    intros Heff.
    destruct (handleInsertDesign_body url title h) as [h1 [v|e]] eqn:Hbody.
    + apply (runs_handleInsertDesign_body url title h h1 v Hbody).
    + exfalso.
      destruct (handleInsertDesign_body_ends url title h) as [(He & _) | (Hr & _)];
        rewrite Hbody in *; cbn [fst snd] in *; [|discriminate Hr].
      destruct (notify_cases ("Error inserting design: " ++ errorMessage e) h1)
        as [(_ & _ & H1) | (_ & H1)]; rewrite H1, He in Heff.
      * exact (app_one_neq _ _ Heff).
      * apply app_inv_head in Heff. discriminate Heff.
  - intros Hcalm.
    destruct (handleInsertDesign_body_calm url title h Hcalm)
      as (h1 & Hrun & _ & _ & _ & _ & Heff & _).
    rewrite (insert_run url title h h1 Hrun). exact Heff.
Qed.

Lemma insert_success_iff_no_failure_witness :
  let h := demo_host [1] 12.5 (-3) [] in
  let h' := fst (onmessage (PreviewActionMessage "insert" "https://figma.com/x" "Card") h) in
  effects h' = effects h ++ [inserted "Card"] /\ calm 20 h.
Proof.
  intros h h'.
  assert (Heff : effects h' = effects h ++ [inserted "Card"]) by (vm_compute; reflexivity).
  split; [exact Heff|].
  exact (proj1 (insert_success_iff_no_failure h "https://figma.com/x" "Card") Heff).
Defined.

Lemma parent_in_label C p q :
  let k := fresh C in
  parent_in k (C ++ [Node k p [Node (S k) q []]]) = Some None /\
  parent_in (S k) (C ++ [Node k p [Node (S k) q []]]) = Some (Some k).
Proof.
  intros k.
  assert (Hk : ~ In k (forest_ids C)) by apply fresh_not_in.
  assert (Hk2 : ~ In (S k) (forest_ids C)).
  { intros Hin. apply fresh_gt in Hin. unfold k in Hin. lia. }
  clearbody k. split.
  - rewrite parent_in_app, parent_in_not_in by exact Hk.
    simpl. rewrite Nat.eqb_refl. reflexivity.
  - rewrite parent_in_app, parent_in_not_in by exact Hk2.
    simpl. rewrite Nat.eqb_refl.
    destruct (Nat.eqb_spec k (S k)) as [E|_]; [lia | reflexivity].
Qed.

(** X5. An insert message, when the host raises nothing, leaves the new
    frame as the last child of the page, selected alone and shown by the
    viewport, filled with the two-stop gradient; inside it, and nowhere
    else, the label: a text node at (20, 20) of font size 16, filled white,
    that reads [title]; the font Inter Regular is loaded. *)
Theorem insert_builds_labelled_frame (h : Host) (url title : string) :
  calm 20 h ->
  let h' := fst (onmessage (PreviewActionMessage "insert" url title) h) in
  exists (k : NodeId) (frame text : Props),
    children h' = children h ++ [Node k frame [Node (S k) text []]] /\
    selection h' = [k] /\
    in_view h' = [k] /\
    center h' = fit h (children h') [k] /\
    parent_in k (children h') = Some None /\
    parent_in (S k) (children h') = Some (Some k) /\
    fills frame = [gradient_fill] /\
    type text = TEXT /\
    characters text = title /\
    (x text, y text) = (20, 20)%float /\
    fontSize text = 16%float /\
    fills text = [SOLID (1, 1, 1)%float] /\
    fonts h' = figma.Inter_Regular :: fonts h.
Proof.
  intros Hcalm h'.
  destruct (handleInsertDesign_body_calm url title h Hcalm)
    as (h1 & Hrun & Hch & Hs & Hv & Hc & _ & Hf).
  unfold h'. rewrite (insert_run url title h h1 Hrun).
  exists (fresh (children h)), (placeholder title (center h)), (label title).
  destruct (parent_in_label (children h) (placeholder title (center h)) (label title))
    as [Hp1 Hp2].
  rewrite Hch. repeat split; try assumption.
  rewrite <- Hch. exact Hc.
Qed.

Lemma insert_builds_labelled_frame_witness :
  let h := demo_host [1] 12.5 (-3) [] in
  let h' := fst (onmessage (PreviewActionMessage "insert" "https://figma.com/x" "Card") h) in
  calm 20 h /\
  exists (k : NodeId) (frame text : Props),
    children h' = children h ++ [Node k frame [Node (S k) text []]] /\
    selection h' = [k] /\
    in_view h' = [k] /\
    center h' = fit h (children h') [k] /\
    parent_in k (children h') = Some None /\
    parent_in (S k) (children h') = Some (Some k) /\
    fills frame = [gradient_fill] /\
    type text = TEXT /\
    characters text = "Card" /\
    (x text, y text) = (20, 20)%float /\
    fontSize text = 16%float /\
    fills text = [SOLID (1, 1, 1)%float] /\
    fonts h' = figma.Inter_Regular :: fonts h.
Proof.
  intros h h'.
  assert (Hcalm : calm 20 h) by (apply quiet_calm; reflexivity).
  split; [exact Hcalm|].
  exact (insert_builds_labelled_frame h "https://figma.com/x" "Card" Hcalm).
Defined.

Lemma handleGoToFile_body_effects url title h :
  (effects (fst (handleGoToFile_body url title h)) = effects h /\
   exists e, snd (handleGoToFile_body url title h) = Throw e) \/
  (effects (fst (handleGoToFile_body url title h)) = effects h ++ [OpenExternal url] /\
   exists e, snd (handleGoToFile_body url title h) = Throw e) \/
  (effects (fst (handleGoToFile_body url title h))
     = effects h ++ [OpenExternal url; opening title] /\
   snd (handleGoToFile_body url title h) = Normal tt).
Proof.
  unfold handleGoToFile_body, bind.
  destruct (openExternal_cases url h) as [(e & Hr & He) | (Hr & He)];
    destruct (figma.openExternal url h) as [h1 r]; cbn [fst snd] in *; subst r.
  - left. split; [exact He | exists e; reflexivity].
  - destruct (notify_cases ("Opening: " ++ title) h1) as [(e & Hr & Hn) | (Hr & Hn)].
    + right. left. rewrite Hn, He. split; [reflexivity | exists e; exact Hr].
    + right. right. rewrite Hn, He, <- app_assoc. split; [reflexivity | exact Hr].
Qed.

(** X6. Whatever the host raises, a goto message only appends to the
    effects; it asks at most once for a URL to be opened, and only for its
    own [url]; the notification that names [title] is only issued after
    that request; and a failure, of the request or of that notification,
    is answered by the error notification at most. *)
Theorem goto_effects (h : Host) (url title : string) :
  let h' := fst (onmessage (PreviewActionMessage "goto" url title) h) in
  exists l : list Effect,
    effects h' = effects h ++ l /\
    (l = [] \/
     (exists e, l = [goto_failed e]) \/
     l = [OpenExternal url] \/
     l = [OpenExternal url; opening title] \/
     (exists e, l = [OpenExternal url; goto_failed e])).
Proof.
  intros h'. unfold h'. rewrite onmessage_goto.
  unfold call_async, handleGoToFile, try_catch. cbn [fst].
  destruct (handleGoToFile_body_effects url title h)
    as [(He & e & Hr) | [(He & e & Hr) | (He & Hr)]];
    destruct (handleGoToFile_body url title h) as [h1 r];
    cbn [fst snd] in *; subst r.
  - destruct (caught_cases goto_failed _ e h1 (effects h) [] eq_refl)
      as [H1 | H1]; [rewrite app_nil_r; exact He | | ].
    + exists []. split; [exact H1 | left; reflexivity].
    + exists [goto_failed e]. split; [exact H1 | right; left; exists e; reflexivity].
  - destruct (caught_cases goto_failed _ e h1 (effects h) [OpenExternal url] eq_refl He)
      as [H1 | H1].
    + exists [OpenExternal url]. split; [exact H1 | tauto].
    + exists [OpenExternal url; goto_failed e]. split; [exact H1|].
      right. right. right. right. exists e. reflexivity.
  - exists [OpenExternal url; opening title]. split; [exact He | tauto].
Qed.

(** ** Failures at particular calls *)

Lemma schedule_split n e rest h :
  failures h = repeat None n ++ Some e :: rest ->
  calm n h /\ hd None (failures (skip n h)) = Some e /\
  failures (skip (S n) h) = rest.
Proof.
  intros Hf. destruct (calm_prefix n h (Some e :: rest) Hf) as [Hc Hleft].
  split; [exact Hc|]. split; [rewrite Hleft; reflexivity|].
  replace (S n) with (n + 1) by lia. rewrite skip_add. cbn [skip].
  unfold rest_of. cbn [failures with_failures]. rewrite Hleft. reflexivity.
Qed.

(** X7. An insert message whose font cannot be loaded (the awaited call,
    the tenth, raises [e]) leaves two new children on the page: the frame,
    named, sized, placed and filled but without a label, and beside it the
    text node, still empty; nothing is selected or shown anew, no font is
    recorded, and the one effect is the error notification. *)
Theorem insert_without_font (h : Host) (url title : string) (e : Thrown)
  (rest : list (option Thrown)) :
  failures h = repeat None 9 ++ Some e :: rest ->
  hd None rest = None ->
  let h' := fst (onmessage (PreviewActionMessage "insert" url title) h) in
  children h' = children h ++
    [ Node (fresh (children h)) (placeholder title (center h)) [];
      Node (S (fresh (children h))) figma.new_text [] ] /\
  selection h' = selection h /\
  in_view h' = in_view h /\
  center h' = center h /\
  fonts h' = fonts h /\
  effects h' = effects h ++ [insert_failed e].
Proof.
  intros Hsched Hrest h'.
  destruct (schedule_split 9 e rest h Hsched) as (Hcalm & Hfail & Hafter).
  destruct Hcalm as (C1 & C2 & C3 & C4 & C5 & C6 & C7 & C8 & C9 & _).
  pose proof (fresh_not_in (children h)) as Hk.
  set (k := fresh (children h)) in *.
  assert (Hnil : ~ In k (forest_ids [])) by (intros []).
  assert (Hbody : handleInsertDesign_body url title h =
                  (with_children
                     (children h ++ [Node k (placeholder title (center h)) [];
                                     Node (S k) figma.new_text []])
                     (skip 10 h), Throw e)).
  { unfold handleInsertDesign_body, bind.
    unfold figma.createFrame, figma.create at 1. call_ok C1. fold k.
    unfold figma.set at 1. call_ok C2.
    rewrite find_new_root, update_new_root by assumption.
    unfold figma.resize.
    change (PrimFloat.ltb 400 0.01 || PrimFloat.ltb 300 0.01)%bool with false.
    cbn iota.
    unfold figma.set at 1. call_ok C3.
    rewrite find_new_root, update_new_root by assumption.
    unfold figma.get_center at 1. call_ok C4.
    unfold figma.get_center at 1. call_ok C5.
    unfold figma.set at 1. call_ok C6.
    rewrite find_new_root, update_new_root by assumption.
    unfold figma.set at 1. call_ok C7.
    rewrite find_new_root, update_new_root by assumption.
    unfold figma.set at 1. call_ok C8.
    rewrite find_new_root, update_new_root by assumption.
    unfold figma.createText, figma.create. call_ok C9.
    rewrite fresh_snoc by reflexivity. fold k.
    unfold figma.loadFontAsync. rewrite (host_call_fail _ _ e) by exact Hfail.
    rewrite <- app_assoc. reflexivity. }
  assert (Hh' : h' = with_effects (effects h ++ [insert_failed e])
                       (with_children
                          (children h ++ [Node k (placeholder title (center h)) [];
                                          Node (S k) figma.new_text []])
                          (skip 11 h))).
  { unfold h'. rewrite onmessage_insert.
    unfold call_async, handleInsertDesign, try_catch. rewrite Hbody.
    unfold figma.notify. rewrite host_call_ok.
    - cbn [fst]. project. reflexivity.
    - cbn [failures with_children]. rewrite Hafter. exact Hrest. }
  rewrite Hh'. project. repeat split.
Qed.

Lemma insert_without_font_witness :
  let h := demo_host [1] 100 100
             (repeat None 9 ++ [Some (ErrorObject "Font unavailable"); None]) in
  let h' := fst (onmessage (PreviewActionMessage "insert" "https://figma.com/x" "Card") h) in
  failures h = repeat None 9 ++ [Some (ErrorObject "Font unavailable"); None] /\
  hd None [@None Thrown] = None /\
  map summary (children h') =
    map summary (children h) ++ [(5, "Card", (-100, -50)%float, 0);
                                 (6, "Text", (0, 0)%float, 0)] /\
  selection h' = [1] /\
  effects h' = [Notify "Error inserting design: Font unavailable"].
Proof.
  intros h h'.
  assert (Hsched : failures h
                   = repeat None 9 ++ [Some (ErrorObject "Font unavailable"); None])
    by reflexivity.
  assert (Hrest : hd None [@None Thrown] = None) by reflexivity.
  destruct (insert_without_font h "https://figma.com/x" "Card"
              (ErrorObject "Font unavailable") [None] Hsched Hrest)
    as (Hch & Hs & _ & _ & _ & Heff).
  split; [exact Hsched|]. split; [exact Hrest|].
  split; [|split; [exact Hs | exact Heff]].
  unfold h'. rewrite Hch. reflexivity.
Defined.

(** X8. A copy message on a non-empty selection of [N] nodes whose loop
    completes but whose next call raises [e]: when the assignment of the
    selection raises, all [N] duplicates are on the page but the old
    selection stays; when it is the scrolling that raises ([late]), the
    duplicates are selected but the viewport stays. In both cases the
    effects are the notification of readiness and then the error
    notification. *)
Theorem copy_fails_after_loop
  (h : Host) (url title : string) (e : Thrown) (late : bool) :
  selection h <> [] ->
  Forall (live (children h)) (selection h) ->
  failures h = repeat None (2 + 6 * List.length (selection h)
                            + (if late then 1 else 0)) ++ [Some e] ->
  let h' := fst (onmessage (PreviewActionMessage "copy" url title) h) in
  exists clones : Forest,
    children h' = children h ++ clones /\
    Forall2 (duplicate_of (children h)) (selection h) clones /\
    selection h' = (if late then map node_id clones else selection h) /\
    in_view h' = in_view h /\
    center h' = center h /\
    effects h' = effects h ++ [ready title; copy_failed e].
Proof.
  intros Hsel Hlive Hsched h'.
  destruct (schedule_split _ e [] h Hsched) as (Hcalm & Hfail & Hafter).
  exists (copies (children h) (selection h)).
  assert (Hdup : Forall2 (duplicate_of (children h)) (selection h)
                   (copies (children h) (selection h)))
    by (apply copies_duplicate; exact Hlive).
  assert (Hrun : exists hf,
             fst (handleCopyLayer url title h) = hf /\
             children hf = children h ++ copies (children h) (selection h) /\
             selection hf = (if late then map node_id (copies (children h) (selection h))
                             else selection h) /\
             in_view hf = in_view h /\ center hf = center h /\
             effects hf = effects h ++ [ready title; copy_failed e]).
  { destruct late; eexists; (split; [|]).
    - unfold handleCopyLayer, try_catch, handleCopyLayer_body, bind.
      replace (2 + 6 * List.length (selection h) + 1)
        with (2 + (6 * List.length (selection h) + 1)) in * by lia.
      apply calm_add in Hcalm. destruct Hcalm as [(C1 & C2 & _) Hcalm].
      apply calm_add in Hcalm. destruct Hcalm as [Hloop (C3 & _)].
      rewrite !skip_add in Hfail. schedule_in C3. schedule_in Hfail.
      replace (S (2 + (6 * List.length (selection h) + 1)))
        with (2 + (6 * List.length (selection h) + 2)) in Hafter by lia.
      rewrite !skip_add in Hafter. schedule_in Hafter.
      unfold figma.get_selection. rewrite host_call_ok by exact C1.
      rewrite length_zero_nil by exact Hsel.
      unfold figma.notify at 1. rewrite host_call_ok by exact C2.
      rewrite duplicate_all_calm;
        [ | eapply calm_ext; [|exact Hloop]; reflexivity | exact Hlive ].
      unfold figma.set_selection. rewrite host_call_ok by (schedule; exact C3).
      unfold figma.scrollAndZoomIntoView.
      rewrite (host_call_fail _ _ e) by (schedule; exact Hfail).
      unfold figma.notify.
      rewrite host_call_ok by (schedule; rewrite Hafter; reflexivity).
      reflexivity.
    - project. rewrite <- app_assoc. repeat split.
    - unfold handleCopyLayer, try_catch, handleCopyLayer_body, bind.
      replace (2 + 6 * List.length (selection h) + 0)
        with (2 + 6 * List.length (selection h)) in * by lia.
      apply calm_add in Hcalm. destruct Hcalm as [(C1 & C2 & _) Hloop].
      rewrite !skip_add in Hfail. schedule_in Hfail.
      replace (S (2 + 6 * List.length (selection h)))
        with (2 + (6 * List.length (selection h) + 1)) in Hafter by lia.
      rewrite !skip_add in Hafter. schedule_in Hafter.
      unfold figma.get_selection. rewrite host_call_ok by exact C1.
      rewrite length_zero_nil by exact Hsel.
      unfold figma.notify at 1. rewrite host_call_ok by exact C2.
      rewrite duplicate_all_calm;
        [ | eapply calm_ext; [|exact Hloop]; reflexivity | exact Hlive ].
      unfold figma.set_selection.
      rewrite (host_call_fail _ _ e) by (schedule; exact Hfail).
      unfold figma.notify.
      rewrite host_call_ok by (schedule; rewrite Hafter; reflexivity).
      reflexivity.
    - project. rewrite <- app_assoc. repeat split. }
  destruct Hrun as (hf & Hhf & Hch & Hs & Hv & Hc & He).
  unfold h'. rewrite onmessage_copy. unfold call_async. cbn [fst]. rewrite Hhf.
  repeat split; assumption.
Qed.

Lemma copy_fails_after_loop_witness :
  let h := demo_host [4; 1] 100 100
             (repeat None (2 + 6 * 2 + 1) ++ [Some (ErrorObject "Busy")]) in
  let h' := fst (onmessage (PreviewActionMessage "copy" "https://figma.com/x" "Card") h) in
  selection h <> [] /\
  Forall (live (children h)) (selection h) /\
  exists clones : Forest,
    children h' = children h ++ clones /\
    Forall2 (duplicate_of (children h)) (selection h) clones /\
    selection h' = map node_id clones /\
    in_view h' = in_view h /\
    center h' = center h /\
    effects h' = effects h ++ [ready "Card"; copy_failed (ErrorObject "Busy")].
Proof.
  intros h h'.
  assert (Hsel : selection h <> []) by discriminate.
  assert (Hlive : Forall (live (children h)) (selection h))
    by (repeat constructor; unfold live; simpl; discriminate).
  split; [exact Hsel|]. split; [exact Hlive|].
  exact (copy_fails_after_loop h "https://figma.com/x" "Card" (ErrorObject "Busy") true
           Hsel Hlive eq_refl).
Defined.

(** ** Messages one after the other *)

Lemma drains_ret {A : Type} (v : A) : drains (ret v).
Proof. intros h. exists 0. reflexivity. Qed.

Lemma drains_bind {A B : Type} (m : Js A) (k : A -> Js B) :
  drains m -> (forall v, drains (k v)) -> drains (bind m k).
Proof.
  intros Hm Hk h. unfold bind. destruct (Hm h) as [n1 H1].
  destruct (m h) as [h1 [v|e]]; cbn [fst] in *.
  - destruct (Hk v h1) as [n2 H2]. exists (n2 + n1).
    rewrite H2, H1. apply skipn_skipn.
  - exists n1. exact H1.
Qed.

Lemma drains_call {A : Type} (op : Js A) :
  (forall h, failures (fst (op h)) = failures h) -> drains (host_call op).
Proof.
  intros Hop h. exists 1. unfold host_call.
  destruct (failures h) as [|[e|] fs] eqn:Hf;
    [rewrite Hop | | rewrite Hop]; reflexivity.
Qed.

Lemma drains_try_catch {A : Type} (body : Js A) handler :
  drains body -> (forall e, drains (handler e)) -> drains (try_catch body handler).
Proof.
  intros Hb Hh h. unfold try_catch. destruct (Hb h) as [n1 H1].
  destruct (body h) as [h1 [v|e]]; cbn [fst] in *.
  - exists n1. exact H1.
  - destruct (Hh e h1) as [n2 H2]. exists (n2 + n1).
    rewrite H2, H1. apply skipn_skipn.
Qed.

(** Every operation of the host the plugin uses. *)
Ltac drains_op :=
  first [ apply drains_call; untouched
        | unfold figma.createFrame, figma.createText; apply drains_call; untouched ].

Lemma drains_resize node w h0 : drains (figma.resize node w h0).
Proof.
  unfold figma.resize. destruct (PrimFloat.ltb w 0.01 || PrimFloat.ltb h0 0.01)%bool;
    drains_op.
Qed.

Lemma drains_duplicate_all nodes : forall duplicates,
  drains (duplicate_all nodes duplicates).
Proof.
  induction nodes as [|node rest IH]; intros duplicates; simpl.
  - apply drains_ret.
  - apply drains_bind; [|intros; apply IH]. unfold duplicate_node.
    repeat (apply drains_bind; [drains_op | intros]). apply drains_ret.
Qed.

Lemma drains_onmessage msg : drains (onmessage msg).
Proof.
  assert (Hasync : forall m, drains m -> drains (call_async m)).
  { intros m Hm h. destruct (Hm h) as [n Hn]. exists n. exact Hn. }
  destruct msg as [text | action url title]; simpl.
  - intros h. exists 0. reflexivity.
  - destruct (String.eqb action "copy").
    { apply Hasync, drains_try_catch; [|intros; drains_op].
      unfold handleCopyLayer_body.
      apply drains_bind; [drains_op | intros sel].
      destruct (Nat.eqb (List.length sel) 0); [drains_op|].
      apply drains_bind; [drains_op | intros _].
      apply drains_bind; [apply drains_duplicate_all | intros duplicates].
      apply drains_bind; [drains_op | intros _]. drains_op. }
    destruct (String.eqb action "insert").
    { apply Hasync, drains_try_catch; [|intros; drains_op].
      unfold handleInsertDesign_body.
      repeat (apply drains_bind; [first [apply drains_resize | drains_op] | intros]).
      drains_op. }
    destruct (String.eqb action "goto").
    { apply Hasync, drains_try_catch; [|intros; drains_op].
      unfold handleGoToFile_body.
      apply drains_bind; [drains_op | intros _]. drains_op. }
    apply drains_ret.
Qed.

Lemma quiet_onmessage msg h :
  failures h = [] -> failures (fst (onmessage msg h)) = [].
Proof.
  intros Hq. destruct (drains_onmessage msg h) as [n Hn].
  rewrite Hn, Hq. apply skipn_nil.
Qed.

Lemma find_in_root c l : find_in (node_id c) (c :: l) = Some c.
Proof. destruct c as [j p cs]. simpl. rewrite Nat.eqb_refl. reflexivity. Qed.

(** New nodes appended to the page are found there under their identity. *)
Lemma appended_found clones : forall C,
  NoDup (forest_ids clones) ->
  (forall j, In j (forest_ids clones) -> ~ In j (forest_ids C)) ->
  Forall (fun c => find_in (node_id c) (C ++ clones) = Some c) clones.
Proof.
  induction clones as [|c cl IH]; intros C Hnd Hnew; constructor.
  - rewrite find_in_app, find_in_not_in, find_in_root; [reflexivity|].
    apply Hnew. unfold forest_ids. simpl. apply in_app_iff. left.
    apply node_id_in_ids.
  - change (forest_ids (c :: cl)) with (ids c ++ forest_ids cl) in *.
    replace (C ++ c :: cl) with ((C ++ [c]) ++ cl) by (rewrite <- app_assoc; reflexivity).
    apply IH.
    + apply NoDup_app_remove_l in Hnd. exact Hnd.
    + intros j Hj. rewrite forest_ids_app, in_app_iff. intros [HC | Hc].
      * apply (Hnew j); [apply in_app_iff; now right | exact HC].
      * unfold forest_ids in Hc. simpl in Hc. rewrite app_nil_r in Hc.
        apply (NoDup_app_disjoint _ _ j Hnd Hc Hj).
Qed.

Lemma copies_found C nodes :
  Forall (fun c => find_in (node_id c) (C ++ copies C nodes) = Some c) (copies C nodes).
Proof.
  destruct (copies_new nodes C) as [Hnd Hnew]. apply appended_found; assumption.
Qed.

Lemma copies_live C nodes :
  Forall (live (C ++ copies C nodes)) (map node_id (copies C nodes)).
Proof.
  apply Forall_map. eapply Forall_impl; [|apply copies_found].
  intros c Hc. unfold live. cbv beta in Hc. rewrite Hc. discriminate.
Qed.



(** A copy message in normal operation. *)
Lemma copy_settled url title h :
  settled h ->
  let h' := fst (onmessage (PreviewActionMessage "copy" url title) h) in
  settled h' /\
  (selection h = [] ->
   document h' = document h /\ effects h' = effects h ++ [please_select]) /\
  (selection h <> [] ->
   children h' = children h ++ copies (children h) (selection h) /\
   selection h' = map node_id (copies (children h) (selection h)) /\
   effects h' = effects h ++ [ready title]).
Proof.
  intros [Hq Hlive] h'.
  assert (Hq' : failures h' = []) by (apply quiet_onmessage; exact Hq).
  unfold h' in *. rewrite onmessage_copy in *. unfold call_async in *. cbn [fst] in *.
  destruct (selection h) as [|node rest] eqn:Hsel.
  - assert (Hrun : handleCopyLayer url title h =
                   (with_effects (effects h ++ [please_select]) (skip 2 h), Normal tt)).
    { destruct (quiet_calm 2 h Hq) as (C1 & C2 & _).
      unfold handleCopyLayer, try_catch, handleCopyLayer_body, bind.
      unfold figma.get_selection. rewrite host_call_ok by exact C1.
      cbn [selection rest_of with_failures]. rewrite Hsel. cbn [List.length Nat.eqb].
      unfold figma.notify. rewrite host_call_ok by exact C2. reflexivity. }
    rewrite Hrun in *. cbn [fst] in *. split; [|split].
    + split; [exact Hq'|]. project. rewrite Hsel. constructor.
    + intros _. unfold document. project. split; reflexivity.
    + intros Hne. exfalso. apply Hne. reflexivity.
  - destruct (handleCopyLayer_body_calm url title h)
      as (h1 & Hrun & Hch & Hs & _ & _ & Heff & _).
    + apply quiet_calm. exact Hq.
    + rewrite Hsel. discriminate.
    + rewrite Hsel. exact Hlive.
    + assert (Hh : fst (handleCopyLayer url title h) = h1)
        by (unfold handleCopyLayer, try_catch; rewrite Hrun; reflexivity).
      rewrite Hh in *. rewrite Hsel in *. split; [|split].
      * split; [exact Hq'|]. rewrite Hch, Hs. apply copies_live.
      * intros Habs. discriminate Habs.
      * intros _. repeat split; assumption.
Qed.








(** ** Messages that build on the previous one *)

Lemma duplicates_of_found P l : forall l',
  Forall (fun c => find_in (node_id c) P = Some c) l ->
  Forall2 (duplicate_of P) (map node_id l) l' ->
  Forall2 moved_copy l l'.
Proof.
  induction l as [|c l IH]; intros l' Hfound Hdup; inversion Hdup; subst;
    constructor.
  - inversion Hfound as [|? ? Hc _]; subst.
    match goal with H : duplicate_of P (node_id c) _ |- _ =>
      destruct H as (src & Hsrc & Hx & Hy & Hal) end.
    rewrite Hc in Hsrc. injection Hsrc as <-. repeat split; assumption.
  - apply IH; [inversion Hfound; assumption | assumption].
Qed.

(** X11. Two copy messages in a row, in normal operation and with
    something selected: the second duplicates the duplicates of the first,
    not the nodes first selected. The page gains two batches of [N] nodes;
    each node of the second batch is its counterpart of the first batch
    moved by (20, 20) once more, and the second batch is what ends up
    selected. *)
Theorem copy_twice_cascades (h : Host) (url1 title1 url2 title2 : string) :
  settled h ->
  selection h <> [] ->
  let h2 := run [ PreviewActionMessage "copy" url1 title1;
                  PreviewActionMessage "copy" url2 title2 ] h in
  exists first second : Forest,
    children h2 = children h ++ first ++ second /\
    Forall2 (duplicate_of (children h)) (selection h) first /\
    Forall2 moved_copy first second /\
    List.length second = List.length (selection h) /\
    selection h2 = map node_id second /\
    effects h2 = effects h ++ [ready title1; ready title2].
Proof.
  intros Hset Hsel h2. unfold h2. cbn [run].
  destruct (copy_settled url1 title1 h Hset) as (Hset1 & _ & Hsome1).
  destruct (Hsome1 Hsel) as (Hch1 & Hs1 & He1). clear Hsome1.
  set (h1 := fst (onmessage (PreviewActionMessage "copy" url1 title1) h)) in *.
  set (first := copies (children h) (selection h)) in *.
  assert (Hlen1 : List.length first = List.length (selection h))
    by (apply copies_length, Hset).
  assert (Hsel1 : selection h1 <> []).
  { rewrite Hs1. destruct first; [|discriminate].
    destruct (selection h); [tauto | discriminate Hlen1]. }
  destruct (copy_settled url2 title2 h1 Hset1) as (Hset2 & _ & Hsome2).
  destruct (Hsome2 Hsel1) as (Hch2 & Hs2 & He2). clear Hsome2.
  exists first, (copies (children h1) (selection h1)).
  split; [rewrite Hch2, Hch1, app_assoc; reflexivity|].
  split; [apply copies_duplicate, Hset|].
  split.
  { apply (duplicates_of_found (children h1)).
    - rewrite Hch1. apply copies_found.
    - rewrite <- Hs1. apply copies_duplicate, Hset1. }
  split; [rewrite copies_length by apply Hset1; rewrite Hs1, length_map; exact Hlen1|].
  split; [exact Hs2|].
  rewrite He2, He1, <- app_assoc. reflexivity.
Qed.

Lemma copy_twice_cascades_witness :
  let h := demo_host [4; 1] 100 100 [] in
  let h2 := run [ PreviewActionMessage "copy" "https://figma.com/x" "Card";
                  PreviewActionMessage "copy" "https://figma.com/x" "Card" ] h in
  settled h /\ selection h <> [] /\
  map summary (children h2) =
    map summary (children h) ++
    [ (5, "C", (25, 25)%float, 0); (6, "A", (30, 30)%float, 0);
      (7, "C", (45, 45)%float, 0); (8, "A", (50, 50)%float, 0) ] /\
  exists first second : Forest,
    children h2 = children h ++ first ++ second /\
    Forall2 (duplicate_of (children h)) (selection h) first /\
    Forall2 moved_copy first second /\
    List.length second = List.length (selection h) /\
    selection h2 = map node_id second /\
    effects h2 = effects h ++ [ready "Card"; ready "Card"].
Proof.
  intros h h2.
  assert (Hset : settled h).
  { split; [reflexivity|]. repeat constructor; unfold live; simpl; discriminate. }
  assert (Hsel : selection h <> []) by discriminate.
  split; [exact Hset|]. split; [exact Hsel|]. split; [vm_compute; reflexivity|].
  exact (copy_twice_cascades h "https://figma.com/x" "Card" "https://figma.com/x" "Card"
           Hset Hsel).
Defined.




(** ** The selection is replaced as a whole or not at all *)

Lemma fixes_ret {A B : Type} (field : Host -> B) (v : A) : fixes field (ret v).
Proof. intros h. reflexivity. Qed.

Lemma fixes_bind {A B C : Type} (field : Host -> C) (m : Js A) (k : A -> Js B) :
  fixes field m -> (forall v, fixes field (k v)) -> fixes field (bind m k).
Proof.
  intros Hm Hk h. unfold bind. specialize (Hm h).
  destruct (m h) as [h1 [v|e]]; simpl in *; [rewrite Hk|]; exact Hm.
Qed.

Lemma fixes_call {A B : Type} (field : Host -> B) (op : Js A) :
  (forall v h, field (with_failures v h) = field h) ->
  (forall h, field (fst (op h)) = field h) -> fixes field (host_call op).
Proof.
  intros Hfield Hop h. unfold host_call.
  destruct (failures h) as [|[e|] fs]; cbn [fst]; rewrite ?Hop; apply Hfield.
Qed.

Ltac fixes_op := apply fixes_call; [reflexivity | untouched].

Lemma fixes_selection_duplicate_all nodes : forall duplicates,
  fixes selection (duplicate_all nodes duplicates).
Proof.
  induction nodes as [|node rest IH]; intros duplicates; simpl.
  - apply fixes_ret.
  - apply fixes_bind; [|intros; apply IH]. unfold duplicate_node.
    repeat (apply fixes_bind; [fixes_op | intros]). apply fixes_ret.
Qed.

Lemma runs_clone node : runs 1 (figma.clone node).
Proof. apply runs_call. untouched. Qed.

Lemma runs_get {A : Type} (prop : Props -> A) node : runs 1 (figma.get prop node).
Proof. apply runs_call. untouched. Qed.

Lemma runs_duplicate_node node : runs 6 (duplicate_node node).
Proof.
  unfold duplicate_node.
  repeat (eapply runs_bind;
          [ first [ apply runs_clone | apply runs_get | apply runs_set
                  | apply runs_currentPage_appendChild ]
          | intros
          | ]).
  apply runs_ret.
  all: reflexivity.
Qed.

Lemma runs_duplicate_all nodes : forall duplicates,
  runs (6 * List.length nodes) (duplicate_all nodes duplicates).
Proof.
  induction nodes as [|node rest IH]; intros duplicates.
  - apply runs_ret.
  - cbn [duplicate_all].
    eapply runs_bind; [apply runs_duplicate_node | intros; apply IH | simpl; lia].
Qed.

(** The part of the copy handler that follows the notification. *)
Lemma copy_rest_selection sel h2 :
  Forall (live (children h2)) sel ->
  let h3 := fst ((duplicates <- duplicate_all sel [] ;;
                  figma.set_selection duplicates ;;
                  figma.scrollAndZoomIntoView duplicates) h2) in
  (selection h3 = selection h2) \/
  (children h3 = children h2 ++ copies (children h2) sel /\
   selection h3 = map node_id (copies (children h2) sel)).
Proof.
  intros Hlive h3. subst h3. unfold bind.
  destruct (duplicate_all sel [] h2) as [hl [duplicates|e]] eqn:Hloop.
  - destruct (runs_duplicate_all sel [] h2 hl duplicates Hloop) as [Hcalm _].
    pose proof (duplicate_all_calm sel h2 [] Hcalm Hlive) as Heq.
    rewrite Hloop in Heq. injection Heq as Hhl Hdups. cbn [app] in Hdups.
    assert (Hs : selection hl = selection h2) by (rewrite Hhl; project; reflexivity).
    assert (Hc : children hl = children h2 ++ copies (children h2) sel)
      by (rewrite Hhl; project; reflexivity).
    clear Hhl Hloop. subst duplicates.
    unfold figma.set_selection, figma.scrollAndZoomIntoView, host_call.
    destruct (failures hl) as [|[e|] fs]; cbn [fst snd failures with_selection tl].
    + right. split; [exact Hc | reflexivity].
    + left. exact Hs.
    + destruct fs as [|[e|] fs]; cbn [fst]; right; (split; [exact Hc | reflexivity]).
  - left. cbn [fst].
    pose proof (fixes_selection_duplicate_all sel [] h2) as Hfix.
    rewrite Hloop in Hfix. exact Hfix.
Qed.

(** X13. Whatever the host raises, a copy message leaves the selection as
    it was or replaces it by all the duplicates, one for each selected
    node, which are then all on the page: the selection is never emptied
    and never holds only part of the duplicates. *)
Theorem copy_selects_all_or_nothing (h : Host) (url title : string) :
  Forall (live (children h)) (selection h) ->
  let h' := fst (onmessage (PreviewActionMessage "copy" url title) h) in
  selection h' = selection h \/
  exists clones : Forest,
    children h' = children h ++ clones /\
    Forall2 (duplicate_of (children h)) (selection h) clones /\
    selection h' = map node_id clones.
Proof.
  intros Hlive h'. unfold h'. rewrite onmessage_copy.
  unfold call_async, handleCopyLayer, try_catch. cbn [fst].
  assert (Hbody :
    let h1 := fst (handleCopyLayer_body url title h) in
    selection h1 = selection h \/
    (children h1 = children h ++ copies (children h) (selection h) /\
     selection h1 = map node_id (copies (children h) (selection h)))).
  { rewrite handleCopyLayer_body_unfold.
    assert (Hcases :
      let h1 := fst (if Nat.eqb (List.length (selection h)) 0
                     then figma.notify "Please select a layer to copy first" (rest_of h)
                     else
                       match figma.notify (ready_to_copy title) (rest_of h) with
                       | (h2, Normal _) =>
                           (duplicates <- duplicate_all (selection h) [] ;;
                            figma.set_selection duplicates ;;
                            figma.scrollAndZoomIntoView duplicates) h2
                       | (h2, Throw e) => (h2, Throw e)
                       end) in
      selection h1 = selection h \/
      (children h1 = children h ++ copies (children h) (selection h) /\
       selection h1 = map node_id (copies (children h) (selection h)))).
    { assert (Hn : forall message,
                children (fst (figma.notify message (rest_of h))) = children h /\
                selection (fst (figma.notify message (rest_of h))) = selection h).
      { intros message. unfold figma.notify, host_call, rest_of.
        cbn [failures with_failures].
        destruct (tl (failures h)) as [|[e|] fs]; split; reflexivity. }
      destruct (Nat.eqb (List.length (selection h)) 0).
      - left. apply Hn.
      - destruct (Hn (ready_to_copy title)) as [Hc2 Hs2].
        destruct (figma.notify (ready_to_copy title) (rest_of h)) as [h2 [[]|e]];
          cbn [fst] in *; [|left; exact Hs2].
        destruct (copy_rest_selection (selection h) h2) as [Hkeep | [Hc3 Hs3]];
          [rewrite Hc2; exact Hlive | left | right].
        * rewrite Hkeep. exact Hs2.
        * rewrite Hc3, Hs3, Hc2. split; reflexivity. }
    destruct (failures h) as [|[e|] fs]; [exact Hcases | left; reflexivity | exact Hcases]. }
  cbv zeta in Hbody.
  assert (Hcatch : forall message h1,
            children (fst (figma.notify message h1)) = children h1 /\
            selection (fst (figma.notify message h1)) = selection h1).
  { intros message h1. unfold figma.notify, host_call.
    destruct (failures h1) as [|[e|] fs]; split; reflexivity. }
  destruct (handleCopyLayer_body url title h) as [h1 [[]|e]]; cbn [fst] in *.
  - destruct Hbody as [Hs | [Hc Hs]]; [left; exact Hs|].
    right. exists (copies (children h) (selection h)).
    split; [exact Hc|]. split; [apply copies_duplicate; exact Hlive | exact Hs].
  - destruct (Hcatch ("Error copying layer: " ++ errorMessage e)%string h1) as [Hc1 Hs1].
    rewrite Hc1, Hs1.
    destruct Hbody as [Hs | [Hc Hs]]; [left; exact Hs|].
    right. exists (copies (children h) (selection h)).
    split; [exact Hc|]. split; [apply copies_duplicate; exact Hlive | exact Hs].
Qed.

Lemma copy_selects_all_or_nothing_witness :
  let h := demo_host [4; 1] 100 100
             (repeat None 9 ++ [Some (ErrorObject "Locked")]) in
  let h' := fst (onmessage (PreviewActionMessage "copy" "https://figma.com/x" "Card") h) in
  Forall (live (children h)) (selection h) /\
  (selection h' = selection h \/
   exists clones : Forest,
     children h' = children h ++ clones /\
     Forall2 (duplicate_of (children h)) (selection h) clones /\
     selection h' = map node_id clones).
Proof.
  intros h h'.
  assert (Hlive : Forall (live (children h)) (selection h))
    by (repeat constructor; unfold live; simpl; discriminate).
  split; [exact Hlive|].
  exact (copy_selects_all_or_nothing h "https://figma.com/x" "Card" Hlive).
Defined.
